(** * agentix-fastapi frontend: token routing, session registry, stream consumer

    A shallow embedding of the client core of the repository:

    - [JS]: the JavaScript string primitives the code relies on
      ([||] on strings, [trim], [startsWith], [substring], [split]).
    - [Session]: [context/SessionContext.tsx], the session registry.
    - [Auth]: the identity session ([AuthContext]).
    - [Router]: the axios request interceptor ([lib/api]).
    - [Chat]: the stream read loop and the catch branch of [handleSubmit].

    React state is modelled by explicit state passing; every awaited network
    call takes the server's reply as an argument ([None] is a rejected
    promise) and is recorded in a request log. *)

From Stdlib Require Import ZArith Lia Ascii.
From stdpp Require Import base option list strings gmap pretty.

(** ** JavaScript string primitives *)

Module JS.

(** Strings are sequences of 8-bit code units (the Latin-1 range of
    JavaScript's UTF-16 code units). *)

(** [!!s] for a string: only the empty string is falsy. *)
Definition truthy (s : string) : bool :=
  match s with
  | EmptyString => false
  | String _ _ => true
  end.

(** [!!v] for a value of type [string | null]. *)
Definition truthy_opt (v : option string) : bool :=
  match v with
  | Some s => truthy s
  | None => false
  end.

(** [s || d] on strings. *)
Definition or_else (s d : string) : string :=
  if truthy s then s else d.

(** WhiteSpace and LineTerminator code units below 256: TAB, LF, VT, FF,
    CR, SP and NBSP. *)
Definition isWhiteSpace (c : ascii) : bool :=
  match c with
  | "009" | "010" | "011" | "012" | "013" | " " | "160" => true
  | _ => false
  end%char.

Fixpoint trimStart (s : string) : string :=
  match s with
  | EmptyString => EmptyString
  | String c r => if isWhiteSpace c then trimStart r else s
  end.

Definition trimEnd (s : string) : string :=
  String.rev (trimStart (String.rev s)).

(** [s.trim()] *)
Definition trim (s : string) : string := trimEnd (trimStart s).

(** Every code unit of [s] is white space (the empty string included). *)
Fixpoint allWhiteSpace (s : string) : bool :=
  match s with
  | EmptyString => true
  | String c r => isWhiteSpace c && allWhiteSpace r
  end.

(** [s.startsWith(p)] *)
Definition startsWith (p s : string) : bool := String.prefix p s.

(** [s.substring(n)] *)
Fixpoint substring (n : nat) (s : string) : string :=
  match n, s with
  | O, _ => s
  | S _, EmptyString => EmptyString
  | S k, String _ r => substring k r
  end.

Definition lowerChar (c : ascii) : ascii :=
  let n := nat_of_ascii c in
  if (65 <=? n)%nat && (n <=? 90)%nat then ascii_of_nat (n + 32) else c.

(** [s.toLowerCase()] on the ASCII letters. *)
Fixpoint toLowerCase (s : string) : string :=
  match s with
  | EmptyString => EmptyString
  | String c r => String (lowerChar c) (toLowerCase r)
  end.

(** [s.split(sep)] for a non-empty separator: a left-to-right scan for
    non-overlapping occurrences. [skip] counts the code units of a matched
    separator still to be passed over; [cur] is the piece being built, in
    reverse. *)
Fixpoint split_go (sep : string) (skip : nat) (cur : string) (s : string)
  : list string :=
  match s with
  | EmptyString => [String.rev cur]
  | String c r =>
      match skip with
      | S k => split_go sep k cur r
      | O =>
          if String.prefix sep s
          then String.rev cur :: split_go sep (String.length sep - 1) "" r
          else split_go sep 0 (String c cur) r
      end
  end.

Definition split (sep s : string) : list string := split_go sep 0 "" s.

(** [lines.pop()] : the last element (or [undefined]) and the array
    without it. *)
Definition pop (l : list string) : option string * list string :=
  (last l, removelast l).

End JS.

(** ** The session registry ([context/SessionContext.tsx]) *)

Module Session.

Record Token := mkToken {
  access_token : string;
  token_type : string;
  expires_at : string
}.

(** [SessionInfo] and [SessionResponse] have the same shape. The token is
    optional because the code guards every access with [?.]. *)
Record SessionInfo := mkSession {
  session_id : string;
  name : string;
  token : option Token
}.

(** [{ ...s, name: n }] *)
Definition with_name (s : SessionInfo) (n : string) : SessionInfo :=
  {| session_id := session_id s; name := n; token := token s |}.

(** [s?.token?.access_token] *)
Definition access_token_of (s : option SessionInfo) : option string :=
  match s with
  | Some s =>
      match token s with
      | Some t => Some (access_token t)
      | None => None
      end
  | None => None
  end.

(** A call made through the axios instance, as written at the call site:
    the method, the URL, and the headers and form field the caller sets. *)
Inductive Call :=
| Get (url : string)
| Post (url : string)
| Patch (url : string) (form_name : string) (authorization : string)
| Delete (url : string) (authorization : string).

(** The provider's React state, the browser's [localStorage], and the log
    of the requests issued so far (oldest first). *)
Record State := mkState {
  sessions : list SessionInfo;
  activeSessionInfo : option SessionInfo;
  isSessionLoading : bool;
  localStorage : gmap string string;
  network : list Call
}.

(** A small state monad for the provider's callbacks. *)
Definition M (A : Type) : Type := State → A * State.

Global Instance M_ret : MRet M := λ A a st, (a, st).
Global Instance M_bind : MBind M :=
  λ A B k m st, let (a, st') := m st in k a st'.

Definition run {A} (m : M A) (st : State) : State := snd (m st).

Definition getSessions : M (list SessionInfo) := λ st, (sessions st, st).
Definition getActiveSessionInfo : M (option SessionInfo) :=
  λ st, (activeSessionInfo st, st).

(** [setSessions(prev => f(prev))]; [setSessions(v)] is [setSessions (λ _, v)]. *)
Definition setSessions (f : list SessionInfo → list SessionInfo) : M unit :=
  λ st, (tt, {| sessions := f (sessions st);
                activeSessionInfo := activeSessionInfo st;
                isSessionLoading := isSessionLoading st;
                localStorage := localStorage st;
                network := network st |}).

Definition setActiveSessionInfo (a : option SessionInfo) : M unit :=
  λ st, (tt, {| sessions := sessions st;
                activeSessionInfo := a;
                isSessionLoading := isSessionLoading st;
                localStorage := localStorage st;
                network := network st |}).

Definition setIsSessionLoading (b : bool) : M unit :=
  λ st, (tt, {| sessions := sessions st;
                activeSessionInfo := activeSessionInfo st;
                isSessionLoading := b;
                localStorage := localStorage st;
                network := network st |}).

Definition modifyStorage (f : gmap string string → gmap string string)
  : M unit :=
  λ st, (tt, {| sessions := sessions st;
                activeSessionInfo := activeSessionInfo st;
                isSessionLoading := isSessionLoading st;
                localStorage := f (localStorage st);
                network := network st |}).

Definition setItem (k v : string) : M unit := modifyStorage (insert k v).
Definition removeItem (k : string) : M unit := modifyStorage (delete k).
Definition getItem (k : string) : M (option string) :=
  λ st, (localStorage st !! k, st).

(** [await api.<method>(...)]: the request is issued (logged) and settles
    with the server's [reply]; [None] is a rejected promise. *)
Definition await {A} (c : Call) (reply : option A) : M (option A) :=
  λ st, (reply, {| sessions := sessions st;
                   activeSessionInfo := activeSessionInfo st;
                   isSessionLoading := isSessionLoading st;
                   localStorage := localStorage st;
                   network := network st ++ [c] |}).

Definition placeholder : string := "Untitled Chat".

(** [find(s => s.session_id === sessionId)] *)
Definition findSession (sessionId : string) (l : list SessionInfo)
  : option SessionInfo :=
  List.find (λ s, String.eqb (session_id s) sessionId) l.

Section Provider.

(** [JSON.stringify] on a session record (used only to persist it). *)
Variable JSON_stringify : SessionInfo → string.

(** [const { userToken } = useAuth()] *)
Variable userToken : option string.

Definition switchActiveSession (sessionInfo : option SessionInfo) : M unit :=
  setActiveSessionInfo sessionInfo ;;
  match sessionInfo with
  | Some s =>
      setItem "activeSessionId" (session_id s) ;;
      setItem "activeSessionInfo" (JSON_stringify s)
  | None =>
      removeItem "activeSessionId" ;;
      removeItem "activeSessionInfo"
  end.

(** [reply] is the server's answer to [POST /api/v1/auth/session]. *)
Definition createNewSessionFn (reply : option SessionInfo)
  : M (option SessionInfo) :=
  if negb (JS.truthy_opt userToken) then mret None
  else
    setIsSessionLoading true ;;
    r ← await (Post "/api/v1/auth/session") reply;
    res ← match r with
          | Some data =>
              let newSession := with_name data (JS.or_else (name data) placeholder) in
              setSessions (λ prev, prev ++ [newSession]) ;;
              switchActiveSession (Some newSession) ;;
              mret (Some newSession)
          | None => mret None
          end;
    setIsSessionLoading false ;;
    mret res.

(** [listReply] answers [GET /api/v1/auth/sessions]; [createReply]
    answers the creation request, should one be issued. *)
Definition fetchSessions (listReply : option (list SessionInfo))
    (createReply : option SessionInfo) : M unit :=
  if negb (JS.truthy_opt userToken) then
    setSessions (λ _, []) ;;
    switchActiveSession None ;;
    setIsSessionLoading false
  else
    setIsSessionLoading true ;;
    r ← await (Get "/api/v1/auth/sessions") listReply;
    fetchedSessions ←
      match r with
      | Some data =>
          let fetchedSessions :=
            (λ s, with_name s (JS.or_else (name s) placeholder)) <$> data in
          setSessions (λ _, fetchedSessions) ;;
          lastStoredActiveId ← getItem "activeSessionId";
          let sessionToActivate :=
            if JS.truthy_opt lastStoredActiveId
            then findSession (default "" lastStoredActiveId) fetchedSessions
            else None in
          let sessionToActivate :=
            match sessionToActivate with
            | Some s => Some s
            | None => last fetchedSessions
            end in
          switchActiveSession sessionToActivate ;;
          mret fetchedSessions
      | None =>
          setSessions (λ _, []) ;;
          switchActiveSession None ;;
          mret []
      end;
    setIsSessionLoading false ;;
    if (length fetchedSessions =? 0)%nat
    then createNewSessionFn createReply ;; mret tt
    else mret tt.

(** [patchReply] answers [PATCH /api/v1/auth/session/{id}/name]. *)
Definition renameSession (sessionId newName : string)
    (patchReply : option SessionInfo) : M unit :=
  sessions0 ← getSessions;
  activeSessionInfo0 ← getActiveSessionInfo;
  let sessionToRename := findSession sessionId sessions0 in
  if negb (JS.truthy_opt (access_token_of sessionToRename)) then mret tt
  else
    let token := default "" (access_token_of sessionToRename) in
    let sanitizedName := JS.or_else (JS.trim newName) placeholder in
    r ← await (Patch ("/api/v1/auth/session/" +:+ sessionId +:+ "/name")
                     sanitizedName ("Bearer " +:+ token)) patchReply;
    match r with
    | Some data =>
        let updatedSession := with_name data sanitizedName in
        let updatedSessions :=
          (λ s, if String.eqb (session_id s) sessionId
                then updatedSession else s) <$> sessions0 in
        setSessions (λ _, updatedSessions) ;;
        if bool_decide (session_id <$> activeSessionInfo0 = Some sessionId)
        then switchActiveSession (Some updatedSession)
        else mret tt
    | None => mret tt
    end.

(** [deleteReply] answers [DELETE /api/v1/auth/session/{id}] ([Some tt]
    on success); [createReply] answers the chained creation request. *)
Definition deleteSession (sessionId : string)
    (deleteReply : option unit) (createReply : option SessionInfo) : M unit :=
  sessions0 ← getSessions;
  activeSessionInfo0 ← getActiveSessionInfo;
  let sessionToDelete := findSession sessionId sessions0 in
  if negb (JS.truthy_opt (access_token_of sessionToDelete)) then mret tt
  else
    let token := default "" (access_token_of sessionToDelete) in
    r ← await (Delete ("/api/v1/auth/session/" +:+ sessionId)
                      ("Bearer " +:+ token)) deleteReply;
    match r with
    | Some _ =>
        let remainingSessions :=
          filter (λ s, session_id s ≠ sessionId) sessions0 in
        setSessions (λ _, remainingSessions) ;;
        if bool_decide (session_id <$> activeSessionInfo0 = Some sessionId)
        then
          let sessionToActivate := last remainingSessions in
          switchActiveSession sessionToActivate ;;
          match sessionToActivate with
          | None => createNewSessionFn createReply ;; mret tt
          | Some _ => mret tt
          end
        else mret tt
    | None => mret tt
    end.

End Provider.

(** Two intermediate states used to describe the operations. *)

(** What [fetchSessions] does before the [finally] check when the list
    request is rejected: the [catch] branch. *)
Definition afterFailedFetch (st : State) : State :=
  {| sessions := [];
     activeSessionInfo := None;
     isSessionLoading := false;
     localStorage :=
       delete "activeSessionInfo" (delete "activeSessionId" (localStorage st));
     network := network st ++ [Get "/api/v1/auth/sessions"] |}.


(** Deleting the only session, which is active: the state before the
    chained creation. *)
Definition afterLastDeleted (st : State) (c : Call) : State :=
  {| sessions := [];
     activeSessionInfo := None;
     isSessionLoading := isSessionLoading st;
     localStorage :=
       delete "activeSessionInfo" (delete "activeSessionId" (localStorage st));
     network := network st ++ [c] |}.

End Session.

(** ** The identity session ([AuthContext]) *)

Module Auth.

Record User := mkUser {
  id : option Z;
  email : option string
}.

(** The provider's React state, the browser's [localStorage] and the last
    route pushed to the router. *)
Record State := mkState {
  userToken : option string;
  user : option User;
  isLoading : bool;
  localStorage : gmap string string;
  route : option string
}.

Definition setUserToken (v : option string) (st : State) : State :=
  {| userToken := v; user := user st; isLoading := isLoading st;
     localStorage := localStorage st; route := route st |}.

Definition setUser (v : option User) (st : State) : State :=
  {| userToken := userToken st; user := v; isLoading := isLoading st;
     localStorage := localStorage st; route := route st |}.

Definition setIsLoading (b : bool) (st : State) : State :=
  {| userToken := userToken st; user := user st; isLoading := b;
     localStorage := localStorage st; route := route st |}.

Definition setItem (k v : string) (st : State) : State :=
  {| userToken := userToken st; user := user st; isLoading := isLoading st;
     localStorage := <[k:=v]> (localStorage st); route := route st |}.

Definition removeItem (k : string) (st : State) : State :=
  {| userToken := userToken st; user := user st; isLoading := isLoading st;
     localStorage := delete k (localStorage st); route := route st |}.

Definition push (r : string) (st : State) : State :=
  {| userToken := userToken st; user := user st; isLoading := isLoading st;
     localStorage := localStorage st; route := Some r |}.

(** [reply] answers [GET /api/v1/auth/me]; [None] is a rejected promise. *)
Definition fetchUserDetails (reply : option User) (st : State) : bool * State :=
  match reply with
  | Some data => (true, setUser (Some {| id := id data; email := email data |}) st)
  | None => (false, setUser None st)
  end.

Definition logout (st : State) : State :=
  push "/login"
    (setUser None
      (setUserToken None
        (removeItem "activeSessionInfo"
          (removeItem "activeSessionId"
            (removeItem "authTokenExpiry"
              (removeItem "authToken" st)))))).

Section Clock.

(** [new Date(s).getTime()]: [None] is an Invalid Date (NaN). *)
Variable Date_parse : string → option Z.

(** [new Date()] at the time of the call, in milliseconds. *)
Variable now : Z.

(** [new Date(expiry) > new Date()]; a comparison with NaN is false. *)
Definition inFuture (expiry : string) : bool :=
  match Date_parse expiry with
  | Some t => (now <? t)%Z
  | None => false
  end.

Definition checkAuth (reply : option User) (st : State) : State :=
  let st := setIsLoading true st in
  let storedToken := localStorage st !! "authToken" in
  let expiry := localStorage st !! "authTokenExpiry" in
  let '(foundValidToken, st) :=
    if JS.truthy_opt storedToken && JS.truthy_opt expiry then
      if inFuture (default "" expiry) then
        let st := setUserToken storedToken st in
        let '(_, st) := fetchUserDetails reply st in
        (true, st)
      else
        (false, removeItem "authTokenExpiry" (removeItem "authToken" st))
    else (false, st) in
  let st :=
    if negb foundValidToken then setUser None (setUserToken None st) else st in
  setIsLoading false st.

(** The stored account token is absent, or its expiry is absent,
    unreadable or not strictly in the future. *)
Definition storedTokenExpiredOrAbsent (st : State) : Prop :=
  JS.truthy_opt (localStorage st !! "authToken") = false ∨
  match localStorage st !! "authTokenExpiry" with
  | Some e => inFuture e = false
  | None => True
  end.

End Clock.

Definition login (newToken expiresAt : string) (reply : option User)
    (st : State) : State :=
  let st := setItem "authToken" newToken st in
  let st := setItem "authTokenExpiry" expiresAt st in
  let st := setUserToken (Some newToken) st in
  let '(_, st) := fetchUserDetails reply st in
  push "/" st.

(** [!!userToken && !!user] *)
Definition isAuthenticated (st : State) : bool :=
  JS.truthy_opt (userToken st) && bool_decide (is_Some (user st)).

End Auth.

(** ** The request router (the axios request interceptor of [lib/api]) *)

Module Router.

(** The parts of an axios request config the interceptor can see. *)
Record Config := mkConfig {
  url : option string;
  method : option string;
  headers : gmap string string;
  data : option string
}.

(** [config.headers.Authorization] *)
Definition Authorization (config : Config) : option string :=
  headers config !! "Authorization".

Section Interceptor.

(** [JSON.parse(str)?.token?.access_token]: [None] when [JSON.parse]
    throws, [Some None] when the path yields no value. *)
Variable parse_access_token : string → option (option string).

Variable localStorage : gmap string string.

(** The chatbot branch: the token of the persisted active session. *)
Definition activeSessionToken : option string :=
  let sessionInfoStr := localStorage !! "activeSessionInfo" in
  if JS.truthy_opt sessionInfoStr then
    match parse_access_token (default "" sessionInfoStr) with
    | Some token => token
    | None => None
    end
  else None.

(** The token the routing table selects (the [let token] of the
    interceptor after the [if]/[else if]). *)
Definition selectToken (config : Config) : option string :=
  let url := JS.or_else (default "" (url config)) "" in
  if JS.startsWith "/api/v1/chatbot" url then activeSessionToken
  else if String.eqb url "/api/v1/auth/me"
          || JS.startsWith "/api/v1/auth/sessions" url
          || String.eqb url "/api/v1/auth/session"
          || JS.startsWith "/api/v1/auth/session/" url then
    if negb (bool_decide (JS.toLowerCase <$> method config = Some "patch"))
    then localStorage !! "authToken"
    else None
  else None.

Definition interceptor (config : Config) : Config :=
  let token := selectToken config in
  if JS.truthy_opt token && negb (JS.truthy_opt (Authorization config)) then
    {| url := url config;
       method := method config;
       headers := <["Authorization" := "Bearer " +:+ default "" token]>
                    (headers config);
       data := data config |}
  else config.

End Interceptor.

End Router.

(** ** The stream consumer ([handleSubmit] of the chat interface) *)

Module StreamChunk.
(** A well-formed frame [{content, done}]. *)
Record t := mk { content : string; done : bool }.
End StreamChunk.

Module Chat.

Inductive Role := user | assistant | system.

Global Instance Role_eq_dec : EqDecision Role.
Proof. solve_decision. Defined.

Record Message := mkMessage {
  role : Role;
  content : string
}.

(** What a [catch] clause can receive: an [Error] instance with its
    [name] and [message], or any other thrown value. *)
Inductive Thrown :=
| ErrorInstance (name message : string)
| NonError.

(** How the response body ends: the read reports [done], or it rejects. *)
Inductive StreamEnd :=
| EndOfData
| ReadRejects (e : Thrown).

(** A response of [fetch]. For one that is not [ok], [json] is the
    [detail] field of the parsed error body ([None] when
    [response.json()] rejects). *)
Inductive Response :=
| NotOk (json : option (option string)) (status : N)
| NullBody
| Body (values : list string) (fin : StreamEnd).

(** What [await fetch(streamUrl, ...)] settles with: a rejection or a
    response. *)
Definition FetchOutcome : Type := Thrown + Response.

(** A request issued with the global [fetch]. *)
Record FetchRequest := mkFetch {
  fetch_url : string;
  fetch_authorization : string;
  fetch_messages : list Message
}.

Record State := mkState {
  input : string;
  isSending : bool;
  messages : list Message;
  fetched : list FetchRequest
}.

(** The record separator, two line feeds. *)
Definition separator : string := String "010"%char (String "010"%char "").

(** The updater passed to [setMessages] for a frame that is not done. *)
Definition appendDelta (chunk_content : string) (prevMessages : list Message)
  : list Message :=
  match last prevMessages with
  | Some lastMessage =>
      if bool_decide (role lastMessage = assistant) then
        removelast prevMessages ++
          [{| role := role lastMessage;
              content := content lastMessage +:+ chunk_content |}]
      else prevMessages
  | None => prevMessages
  end.

(** The body of the inner [try] once the record is parsed. *)
Definition applyChunk (chunk : StreamChunk.t) (msgs : list Message)
  : list Message :=
  if StreamChunk.done chunk then msgs
  else appendDelta (StreamChunk.content chunk) msgs.

(** The updater of the [catch] branch for an [Error] that is not an
    abort. *)
Definition reportError (errorMessage : string) (prevMessages : list Message)
  : list Message :=
  let report :=
    {| role := assistant;
       content := "Sorry, an error occurred: " +:+ errorMessage |} in
  match last prevMessages with
  | Some lastMessage =>
      if bool_decide (role lastMessage = assistant)
         && negb (JS.truthy (content lastMessage))
      then removelast prevMessages ++ [report]
      else prevMessages ++ [report]
  | None => prevMessages ++ [report]
  end.

(** The [catch (error)] branch, as a function on the message list. *)
Definition catchBranch (error : Thrown) (prevMessages : list Message)
  : list Message :=
  match error with
  | ErrorInstance name message =>
      if negb (String.eqb name "AbortError")
      then reportError message prevMessages
      else prevMessages
  | NonError =>
      prevMessages ++
        [{| role := assistant;
            content := "Sorry, an unexpected error occurred." |}]
  end.

(** The text a frame contributes: its content unless it is marked done;
    and the text a sequence of frames contributes, in order. *)
Definition delta (f : StreamChunk.t) : string :=
  if StreamChunk.done f then "" else StreamChunk.content f.

Definition deltas (frames : list StreamChunk.t) : string :=
  foldr (λ f acc, delta f +:+ acc) "" frames.

(** A complete record on the wire: the marker, the payload and the
    separator. *)
Definition wire (payload : string) : string :=
  "data: " +:+ payload +:+ separator.

Fixpoint noLineFeed (s : string) : bool :=
  match s with
  | EmptyString => true
  | String c r => negb (Ascii.eqb c "010"%char) && noLineFeed r
  end.

Section Consumer.

(** [JSON.parse] on a record's payload, read as a frame: [None] when
    the inner [try] throws (the record is malformed). *)
Variable JSON_parse : string → option StreamChunk.t.

(** A payload on one line that [JSON_parse] reads as the frame. *)
Definition wellFormed (r : string * StreamChunk.t) : Prop :=
  noLineFeed r.1 = true ∧ JSON_parse r.1 = Some r.2.

(** One iteration of [for (const line of lines)]. *)
Definition processLine (msgs : list Message) (line : string)
  : list Message :=
  if JS.startsWith "data: " line then
    match JSON_parse (JS.substring 6 line) with
    | Some chunk => applyChunk chunk msgs
    | None => msgs
    end
  else msgs.

(** One iteration of the read loop for a read that yields [value]. *)
Definition readValue (st : string * list Message) (value : string)
  : string * list Message :=
  let '(buffer, msgs) := st in
  let buffer := buffer +:+ value in
  let '(popped, lines) := JS.pop (JS.split separator buffer) in
  let buffer := JS.or_else (default "" popped) "" in
  (buffer, foldl processLine msgs lines).

(** The whole [while (true)] loop over a body that yields [values] and
    then ends with [fin]: the message list it leaves, and the error it
    throws, if any. *)
Definition readLoop (values : list string) (fin : StreamEnd)
    (msgs : list Message) : list Message * option Thrown :=
  let '(_, msgs) := foldl readValue ("", msgs) values in
  match fin with
  | EndOfData => (msgs, None)
  | ReadRejects e => (msgs, Some e)
  end.

End Consumer.

(** Computations of [handleSubmit]: they change the component state and
    either complete or throw. *)
Definition C (A : Type) : Type := State → State * (Thrown + A).

Global Instance C_ret : MRet C := λ A a st, (st, inr a).
Global Instance C_bind : MBind C :=
  λ A B k m st,
    match m st with
    | (st', inr a) => k a st'
    | (st', inl e) => (st', inl e)
    end.
Global Instance C_throw : MThrow Thrown C := λ A e st, (st, inl e).

(** [try { body } catch (error) { handler error } finally { fin }] *)
Definition try_catch_finally {A} (body : C A) (handler : Thrown → C A)
    (fin : C unit) : C A :=
  λ st,
    let '(st1, r1) :=
      match body st with
      | (st', inr a) => (st', inr a)
      | (st', inl e) => handler e st'
      end in
    match fin st1 with
    | (st2, inr _) => (st2, r1)
    | (st2, inl e) => (st2, inl e)
    end.

Definition setMessages (f : list Message → list Message) : C unit :=
  λ st, ({| input := input st; isSending := isSending st;
            messages := f (messages st); fetched := fetched st |}, inr tt).

Definition setInput (v : string) : C unit :=
  λ st, ({| input := v; isSending := isSending st;
            messages := messages st; fetched := fetched st |}, inr tt).

Definition setIsSending (b : bool) : C unit :=
  λ st, ({| input := input st; isSending := b;
            messages := messages st; fetched := fetched st |}, inr tt).

(** [await fetch(...)]: the request is issued and settles with [outcome]. *)
Definition fetch (req : FetchRequest) (outcome : FetchOutcome)
  : C Response :=
  λ st, ({| input := input st; isSending := isSending st;
            messages := messages st; fetched := fetched st ++ [req] |},
         outcome).

Section Submit.

Variable JSON_parse : string → option StreamChunk.t.

(** [api.defaults.baseURL || ''] *)
Variable baseURL : string.

(** [const { activeSessionInfo } = useSession()] *)
Variable activeSessionInfo : option Session.SessionInfo.

(** The request [handleSubmit] sends for the turn. *)
Definition streamRequest (t : string) (st : State) : FetchRequest :=
  {| fetch_url := baseURL +:+ "/api/v1/chatbot/chat/stream";
     fetch_authorization := "Bearer " +:+ t;
     fetch_messages :=
       messages st ++ [{| role := user; content := input st |}] |}.

(** The message list once the turn is shown: the user message and the
    empty assistant placeholder. *)
Definition shownTurn (st : State) : list Message :=
  messages st ++ [{| role := user; content := input st |};
                  {| role := assistant; content := "" |}].

Definition handleSubmit (outcome : FetchOutcome) : C unit :=
  λ st,
  if negb (JS.truthy (JS.trim (input st))) || isSending st
     || negb (bool_decide (is_Some activeSessionInfo))
  then (st, inr tt)
  else
    (setMessages (λ _, shownTurn st) ;;
     setInput "" ;;
     setIsSending true ;;
     try_catch_finally
       (let token := Session.access_token_of activeSessionInfo in
        if negb (JS.truthy_opt token)
        then mthrow (ErrorInstance "Error"
                       "Session token is missing, cannot send message.")
        else
          response ← fetch (streamRequest (default "" token) st) outcome;
          match response with
          | NotOk json status =>
              let detail :=
                match json with
                | Some detail => default "" detail
                | None => "Failed to get error details"
                end in
              mthrow (ErrorInstance "Error"
                        (JS.or_else detail
                           ("HTTP error! status: " +:+ pretty status)))
          | NullBody =>
              mthrow (ErrorInstance "Error" "Response body is null")
          | Body values fin =>
              msgs ← (λ st', (st', inr (messages st')));
              let '(msgs', thrown) := readLoop JSON_parse values fin msgs in
              setMessages (λ _, msgs') ;;
              match thrown with
              | Some e => mthrow e
              | None => mret tt
              end
          end)
       (λ error, setMessages (catchBranch error))
       (setIsSending false)) st.

End Submit.

End Chat.

(** ** The message history ([ChatContext]) *)

Module ChatContext.

(** The calls the provider makes; the interceptor adds the credential. *)
Inductive Call :=
| Get (url : string)
| Delete (url : string).

Record State := mkState {
  messages : list Chat.Message;
  isLoadingMessages : bool;
  network : list Call
}.

(** How an awaited call settles: [inl status] is a rejection, with
    [error.response?.status] when it is an axios error that has a response;
    [inr data] is the response body. *)
Definition Settled (A : Type) : Type := option N + A.

Definition setMessages (v : list Chat.Message) (st : State) : State :=
  {| messages := v; isLoadingMessages := isLoadingMessages st;
     network := network st |}.

Definition setIsLoadingMessages (b : bool) (st : State) : State :=
  {| messages := messages st; isLoadingMessages := b; network := network st |}.

Definition issue (c : Call) (st : State) : State :=
  {| messages := messages st; isLoadingMessages := isLoadingMessages st;
     network := network st ++ [c] |}.

Section Provider.

(** [const { activeSessionInfo } = useSession()] *)
Variable activeSessionInfo : option Session.SessionInfo.

(** [reply] answers [GET /api/v1/chatbot/messages]; its body is
    [response.data.messages], which may be missing. *)
Definition fetchMessages (reply : Settled (option (list Chat.Message)))
    (st : State) : State :=
  if negb (JS.truthy_opt (Session.access_token_of activeSessionInfo)) then
    setMessages [] st
  else
    let st := setIsLoadingMessages true st in
    let st := issue (Get "/api/v1/chatbot/messages") st in
    let st :=
      match reply with
      | inr data => setMessages (default [] data) st
      | inl status =>
          if bool_decide (status = Some 404%N) then setMessages [] st else st
      end in
    setIsLoadingMessages false st.

(** [reply] answers [DELETE /api/v1/chatbot/messages]. *)
Definition clearChatHistory (reply : Settled unit) (st : State) : State :=
  if negb (JS.truthy_opt (Session.access_token_of activeSessionInfo)) then st
  else
    let st := issue (Delete "/api/v1/chatbot/messages") st in
    match reply with
    | inr _ => setMessages [] st
    | inl _ => st
    end.

End Provider.

End ChatContext.

(** ** The session sidebar ([SessionSidebar.tsx]) *)

Module Sidebar.

(** The dialog state of the component. *)
Record State := mkState {
  isRenameDialogOpen : bool;
  sessionToRename : option Session.SessionInfo;
  newName : string;
  isDeleteDialogOpen : bool;
  sessionToDeleteId : option string
}.

Definition openRenameDialog (session : Session.SessionInfo) (ui : State)
  : State :=
  {| isRenameDialogOpen := true;
     sessionToRename := Some session;
     newName := JS.or_else (Session.name session) "";
     isDeleteDialogOpen := isDeleteDialogOpen ui;
     sessionToDeleteId := sessionToDeleteId ui |}.

(** [onChange] of the name input. *)
Definition setNewName (v : string) (ui : State) : State :=
  {| isRenameDialogOpen := isRenameDialogOpen ui;
     sessionToRename := sessionToRename ui;
     newName := v;
     isDeleteDialogOpen := isDeleteDialogOpen ui;
     sessionToDeleteId := sessionToDeleteId ui |}.

Definition handleDeleteClick (sessionId : string) (ui : State) : State :=
  {| isRenameDialogOpen := isRenameDialogOpen ui;
     sessionToRename := sessionToRename ui;
     newName := newName ui;
     isDeleteDialogOpen := true;
     sessionToDeleteId := Some sessionId |}.

Section Handlers.

Variable JSON_stringify : Session.SessionInfo → string.
Variable userToken : option string.

Definition handleNewChat (createReply : option Session.SessionInfo)
    (reg : Session.State) : Session.State :=
  Session.run (Session.createNewSessionFn JSON_stringify userToken createReply)
    reg.

Definition handleSelectSession (session : Session.SessionInfo)
    (reg : Session.State) : Session.State :=
  Session.run (Session.switchActiveSession JSON_stringify (Some session)) reg.

Definition confirmDelete (deleteReply : option unit)
    (createReply : option Session.SessionInfo)
    (st : State * Session.State) : State * Session.State :=
  let '(ui, reg) := st in
  if JS.truthy_opt (sessionToDeleteId ui) then
    ({| isRenameDialogOpen := isRenameDialogOpen ui;
        sessionToRename := sessionToRename ui;
        newName := newName ui;
        isDeleteDialogOpen := isDeleteDialogOpen ui;
        sessionToDeleteId := None |},
     Session.run
       (Session.deleteSession JSON_stringify userToken
          (default "" (sessionToDeleteId ui)) deleteReply createReply) reg)
  else st.

Definition handleRenameSubmit (patchReply : option Session.SessionInfo)
    (st : State * Session.State) : State * Session.State :=
  let '(ui, reg) := st in
  match sessionToRename ui with
  | Some session =>
      if JS.truthy (JS.trim (newName ui)) then
        ({| isRenameDialogOpen := false;
            sessionToRename := None;
            newName := "";
            isDeleteDialogOpen := isDeleteDialogOpen ui;
            sessionToDeleteId := sessionToDeleteId ui |},
         Session.run
           (Session.renameSession JSON_stringify (Session.session_id session)
              (JS.trim (newName ui)) patchReply) reg)
      else st
  | None => st
  end.

End Handlers.

End Sidebar.

(** ** Invariants of the session registry *)

Module Registry.

(** The active pointer refers to a session of the list, and it is the one
    that is persisted; with no active session nothing is persisted. *)
Definition consistent (JSON_stringify : Session.SessionInfo → string)
    (st : Session.State) : Prop :=
  match Session.activeSessionInfo st with
  | Some a =>
      a ∈ Session.sessions st
      ∧ Session.localStorage st !! "activeSessionId"
        = Some (Session.session_id a)
      ∧ Session.localStorage st !! "activeSessionInfo"
        = Some (JSON_stringify a)
  | None =>
      Session.localStorage st !! "activeSessionId" = None
      ∧ Session.localStorage st !! "activeSessionInfo" = None
  end.

(** The fetched list as [fetchSessions] stores it, and the session it
    activates given the remembered id. *)
Definition listed (data : list Session.SessionInfo) : list Session.SessionInfo :=
  (λ s, Session.with_name s (JS.or_else (Session.name s) Session.placeholder))
    <$> data.

Definition sessionToActivate (lastStoredActiveId : option string)
    (fetchedSessions : list Session.SessionInfo) : option Session.SessionInfo :=
  match (if JS.truthy_opt lastStoredActiveId
         then Session.findSession (default "" lastStoredActiveId) fetchedSessions
         else None) with
  | Some s => Some s
  | None => last fetchedSessions
  end.

(** Every session of the list has a display name. *)
Definition named (st : Session.State) : Prop :=
  Forall (λ s, JS.truthy (Session.name s) = true) (Session.sessions st).

End Registry.

(** ** From a call site to the router *)

Module Transport.

(** The request config axios hands to the interceptor for a call of the
    session registry: the URL and the lower-case method, the headers the
    caller passed, and the form field as the body. *)
Definition toConfig (c : Session.Call) : Router.Config :=
  match c with
  | Session.Get url => Router.mkConfig (Some url) (Some "get") ∅ None
  | Session.Post url => Router.mkConfig (Some url) (Some "post") ∅ None
  | Session.Patch url form_name authorization =>
      Router.mkConfig (Some url) (Some "patch")
        (<["Authorization" := authorization]>
           (<["Content-Type" := "application/x-www-form-urlencoded"]> ∅))
        (Some form_name)
  | Session.Delete url authorization =>
      Router.mkConfig (Some url) (Some "delete")
        (<["Authorization" := authorization]> ∅) None
  end.

(** The scan of [JS.split] has reached [s] with [cur] pending, as a scan
    from the start of the pending text would. *)
Definition resumes (sep cur s : string) : Prop :=
  JS.split_go sep 0 "" (String.rev cur +:+ s) = JS.split_go sep 0 cur s.

(** What streaming must leave alone in a message list: every message but
    the last, the length, and the role of the last message. *)
Definition frame (msgs : list Chat.Message)
  : list Chat.Message * nat * option Chat.Role :=
  (removelast msgs, length msgs, Chat.role <$> last msgs).

(** The whole text of a response body read in pieces. *)
Definition text (values : list string) : string :=
  foldr String.append "" values.

End Transport.

(** ** Sample data for the concrete runs *)

Module Sample.

Definition tokenOf (v : string) : Session.Token :=
  Session.mkToken v "bearer" "2030-01-01T00:00:00Z".

Definition first : Session.SessionInfo :=
  Session.mkSession "s1" "First" (Some (tokenOf "sess-1")).

Definition fresh : Session.SessionInfo :=
  Session.mkSession "s2" "" (Some (tokenOf "sess-2")).

Definition tokenless : Session.SessionInfo :=
  Session.mkSession "s3" "Third" None.

(** A stand-in for [JSON.stringify]. *)
Definition stringify (s : Session.SessionInfo) : string :=
  Session.session_id s +:+ ":" +:+ Session.name s.

(** The registry right after mount, and with one active session. *)
Definition mounted : Session.State := Session.mkState [] None true ∅ [].

Definition single : Session.State :=
  Session.mkState [first] (Some first) false ∅ [].

(** A stand-in for [Date] parsing that knows two instants, and a clock
    between them (milliseconds since the epoch). *)
Definition parseDate (s : string) : option Z :=
  if String.eqb s "2000-01-01T00:00:00.000Z" then Some 946684800000%Z
  else if String.eqb s "2030-01-01T00:00:00.000Z" then Some 1893456000000%Z
  else None.

Definition today : Z := 1793577600000.

(** A stand-in for [JSON.parse(str)?.token?.access_token] on the strings
    written by [stringify]. *)
Definition parseAccessToken (s : string) : option (option string) :=
  if String.eqb s (stringify first) then Some (Some "sess-1")
  else if String.eqb s (stringify tokenless) then Some None
  else None.

(** A browser store holding an account token and an active session. *)
Definition store : gmap string string :=
  <["authToken" := "acct"]> (<["activeSessionInfo" := stringify first]> ∅).

Definition chatbotGet : Router.Config :=
  Router.mkConfig (Some "/api/v1/chatbot/messages") (Some "get") ∅ None.

Definition sessionsGet : Router.Config :=
  Router.mkConfig (Some "/api/v1/auth/sessions") (Some "get") ∅ None.

Definition renamePatch : Router.Config :=
  Router.mkConfig (Some "/api/v1/auth/session/s1/name") (Some "patch")
    (<["Authorization" := "Bearer sess-1"]>
       (<["Content-Type" := "application/x-www-form-urlencoded"]> ∅))
    (Some "name=New").

Definition deleteCall : Router.Config :=
  Router.mkConfig (Some "/api/v1/auth/session/s1") (Some "delete")
    (<["Authorization" := "Bearer sess-1"]> ∅) None.

(** The wire form of a frame: [data: {"content": "...", "done": ...}]
    followed by the separator. The double quote is code unit 34. *)
Definition quote : string := String "034"%char "".

Definition payload (f : StreamChunk.t) : string :=
  "{" +:+ quote +:+ "content" +:+ quote +:+ ": "
      +:+ quote +:+ StreamChunk.content f +:+ quote +:+ ", "
      +:+ quote +:+ "done" +:+ quote +:+ ": "
      +:+ (if StreamChunk.done f then "true" else "false") +:+ "}".

Definition record (f : StreamChunk.t) : string := Chat.wire (payload f).

Definition frames : list StreamChunk.t :=
  [StreamChunk.mk "Hel" false; StreamChunk.mk "lo" false;
   StreamChunk.mk "lo" true; StreamChunk.mk "Hi" false;
   StreamChunk.mk "" true].

(** A stand-in for [JSON.parse] that decodes the payloads of [frames]
    and throws on everything else. *)
Definition parseFrame (s : string) : option StreamChunk.t :=
  List.find (λ f, String.eqb (payload f) s) frames.

Definition turn : list Chat.Message :=
  [Chat.mkMessage Chat.user "hi"; Chat.mkMessage Chat.assistant ""].

Definition typed : Chat.State := Chat.mkState "hi" false [] [].

Definition networkError : Chat.Thrown :=
  Chat.ErrorInstance "TypeError" "network error".

Definition aborted : Chat.Thrown :=
  Chat.ErrorInstance "AbortError" "The user aborted a request.".

(** Further states for the concrete runs: a registry whose active session
    is persisted, one that only remembers an id, a rename dialog with a
    padded name, a displayed history, and two more requests. *)
Definition second : Session.SessionInfo :=
  Session.mkSession "s2" "Second" (Some (tokenOf "sess-2")).

Definition one : Session.State :=
  Session.mkState [first] (Some first) false
    (<["activeSessionInfo" := stringify first]>
       (<["activeSessionId" := "s1"]> (<["authToken" := "acct"]> ∅))) [].

Definition two : Session.State :=
  Session.mkState [first; second] (Some second) false
    (<["activeSessionInfo" := stringify second]>
       (<["activeSessionId" := "s2"]> ∅)) [].

Definition remembering : Session.State :=
  Session.mkState [] None true (<["activeSessionId" := "s1"]> ∅) [].

Definition renaming : Sidebar.State :=
  Sidebar.mkState true (Some first) "  Plans  " false None.

Definition history : ChatContext.State := ChatContext.mkState turn true [].

Definition loginPost : Router.Config :=
  Router.mkConfig (Some "/api/v1/auth/login") (Some "post")
    (<["Content-Type" := "application/x-www-form-urlencoded"]> ∅)
    (Some "username=a&password=b").

Definition meGet : Router.Config :=
  Router.mkConfig (Some "/api/v1/auth/me") (Some "get") ∅ None.

Definition loggedOut : Auth.State := Auth.mkState None None true ∅ None.

Definition someone : Auth.User :=
  Auth.mkUser (Some 7%Z) (Some "a@example.org").

End Sample.

(** * Properties *)

(** ** String primitives *)

Example split_ex1 : JS.split "ab" "xabyabz" = ["x"; "y"; "z"].
Proof. reflexivity. Qed.

Example split_ex2 : JS.split "ab" "" = [""] ∧ JS.split "ab" "xab" = ["x"; ""].
Proof. split; reflexivity. Qed.

Example split_ex3 : JS.split "aa" "aaa" = [""; "a"].
Proof. reflexivity. Qed.

Example trim_ex : JS.trim "  a b  " = "a b" ∧ JS.trim "   " = "".
Proof. split; reflexivity. Qed.

Lemma trimStart_allWhiteSpace s :
  JS.allWhiteSpace s = true → JS.trimStart s = "".
Proof.
  induction s as [|c r IH]; simpl; [done|].
  intros [Hc Hr]%andb_prop. rewrite Hc. auto.
Qed.

Lemma trim_allWhiteSpace s : JS.allWhiteSpace s = true → JS.trim s = "".
Proof.
  intros H. unfold JS.trim. rewrite (trimStart_allWhiteSpace s H). reflexivity.
Qed.

Lemma truthy_opt_Some_inv v :
  JS.truthy_opt v = true → ∃ c r, v = Some (String c r).
Proof. destruct v as [[|c r]|]; simpl; try discriminate. eauto. Qed.

(** ** Session registry *)

Section SessionFacts.

Import Session.

Variable JSON_stringify : SessionInfo → string.

Lemma findSession_None id l :
  (∀ s, s ∈ l → session_id s ≠ id) → findSession id l = None.
Proof.
  induction l as [|x l IH]; intros H; simpl; [done|].
  destruct (String.eqb_spec (session_id x) id) as [Heq|Hne].
  - exfalso. apply (H x); [left|done].
  - apply IH. intros s Hs. apply H. by right.
Qed.

Lemma findSession_head s l : findSession (session_id s) (s :: l) = Some s.
Proof. unfold findSession. simpl. by rewrite String.eqb_refl. Qed.

(** The state [createNewSessionFn] leaves, by the server's reply. *)
Lemma createNewSessionFn_ok userToken data st :
  JS.truthy_opt userToken = true →
  let new := with_name data (JS.or_else (name data) placeholder) in
  createNewSessionFn JSON_stringify userToken (Some data) st =
    (Some new,
     {| sessions := sessions st ++ [new];
        activeSessionInfo := Some new;
        isSessionLoading := false;
        localStorage :=
          <["activeSessionInfo" := JSON_stringify new]>
            (<["activeSessionId" := session_id new]> (localStorage st));
        network := network st ++ [Post "/api/v1/auth/session"] |}).
Proof. intros H. unfold createNewSessionFn. rewrite H. reflexivity. Qed.

Lemma createNewSessionFn_fails userToken st :
  JS.truthy_opt userToken = true →
  createNewSessionFn JSON_stringify userToken None st =
    (None,
     {| sessions := sessions st;
        activeSessionInfo := activeSessionInfo st;
        isSessionLoading := false;
        localStorage := localStorage st;
        network := network st ++ [Post "/api/v1/auth/session"] |}).
Proof. intros H. unfold createNewSessionFn. rewrite H. reflexivity. Qed.

Lemma createNewSessionFn_no_token userToken reply st :
  JS.truthy_opt userToken = false →
  createNewSessionFn JSON_stringify userToken reply st = (None, st).
Proof. intros H. unfold createNewSessionFn. rewrite H. reflexivity. Qed.

Lemma switchActiveSession_run a st :
  switchActiveSession JSON_stringify a st =
    (tt,
     {| sessions := sessions st;
        activeSessionInfo := a;
        isSessionLoading := isSessionLoading st;
        localStorage :=
          match a with
          | Some s =>
              <["activeSessionInfo" := JSON_stringify s]>
                (<["activeSessionId" := session_id s]> (localStorage st))
          | None =>
              delete "activeSessionInfo"
                (delete "activeSessionId" (localStorage st))
          end;
        network := network st |}).
Proof. destruct a; reflexivity. Qed.

Lemma fetchSessions_rejected userToken createReply st :
  JS.truthy_opt userToken = true →
  fetchSessions JSON_stringify userToken None createReply st =
    (tt, run (createNewSessionFn JSON_stringify userToken createReply)
             (afterFailedFetch st)).
Proof.
  intros H. unfold fetchSessions, run. rewrite H. simpl.
  unfold mbind, M_bind, afterFailedFetch. simpl.
  by destruct (createNewSessionFn _ _ _ _) as [r st'].
Qed.

Lemma fetchSessions_empty userToken createReply st :
  JS.truthy_opt userToken = true →
  fetchSessions JSON_stringify userToken (Some []) createReply st =
    (tt, run (createNewSessionFn JSON_stringify userToken createReply)
             (afterFailedFetch st)).
Proof.
  intros H. unfold fetchSessions, run. rewrite H. simpl.
  unfold mbind, M_bind, afterFailedFetch. simpl.
  destruct (JS.truthy_opt (localStorage st !! "activeSessionId")); simpl;
    by destruct (createNewSessionFn _ _ _ _) as [r st'].
Qed.

Lemma fetchSessions_sessions_nonempty userToken d data createReply st :
  JS.truthy_opt userToken = true →
  sessions (run (fetchSessions JSON_stringify userToken (Some (d :: data))
                   createReply) st) =
    (λ s, with_name s (JS.or_else (name s) placeholder)) <$> (d :: data).
Proof.
  intros H. unfold fetchSessions, run. rewrite H. simpl.
  unfold mbind, M_bind. simpl.
  rewrite switchActiveSession_run. reflexivity.
Qed.

(** C1 (as amended): with a valid account token, once a [fetchSessions]
    whose list request succeeded and its chained self-healing creation
    have settled, the session list has length at least 1 provided the
    list held at least one session or the creation request succeeded;
    when the list is empty and the creation request is rejected, the list
    stays empty and nothing is active. *)
Theorem fetchSessions_at_least_one userToken data createReply st :
  JS.truthy_opt userToken = true →
  let st' := run (fetchSessions JSON_stringify userToken (Some data)
                    createReply) st in
  (data ≠ [] ∨ is_Some createReply → 1 ≤ length (sessions st'))
  ∧ (data = [] → createReply = None →
     sessions st' = [] ∧ activeSessionInfo st' = None).
Proof.
  intros Htok st'. subst st'. split.
  - intros Hok. destruct data as [|d data].
    + destruct Hok as [?|[r ->]]; [done|].
      unfold run at 1. rewrite fetchSessions_empty by done.
      unfold run. rewrite createNewSessionFn_ok by done. simpl. lia.
    + rewrite fetchSessions_sessions_nonempty by done. simpl. lia.
  - intros -> ->.
    unfold run. rewrite fetchSessions_empty by done.
    unfold run. by rewrite createNewSessionFn_fails.
Qed.

(** C8 (the code at the failing input): with a valid account token and a
    rejected list request, [fetchSessions] still issues the creation
    request right after the failed one. *)
Theorem fetchSessions_creates_after_failed_fetch userToken createReply st :
  JS.truthy_opt userToken = true →
  network (run (fetchSessions JSON_stringify userToken None createReply) st)
  = network st ++ [Get "/api/v1/auth/sessions"; Post "/api/v1/auth/session"].
Proof.
  intros Htok. unfold run at 1. rewrite fetchSessions_rejected by done.
  unfold run. destruct createReply as [d|].
  - rewrite createNewSessionFn_ok by done. simpl. by rewrite <- app_assoc.
  - rewrite createNewSessionFn_fails by done. simpl. by rewrite <- app_assoc.
Qed.

(** The guard of [renameSession] and [deleteSession]. *)
Lemma renameSession_guard id newName patchReply st :
  JS.truthy_opt (access_token_of (findSession id (sessions st))) = false →
  renameSession JSON_stringify id newName patchReply st = (tt, st).
Proof.
  intros H. unfold renameSession, mbind, M_bind, getSessions, getActiveSessionInfo.
  by rewrite H.
Qed.

Lemma deleteSession_guard userToken id deleteReply createReply st :
  JS.truthy_opt (access_token_of (findSession id (sessions st))) = false →
  deleteSession JSON_stringify userToken id deleteReply createReply st
  = (tt, st).
Proof.
  intros H. unfold deleteSession, mbind, M_bind, getSessions, getActiveSessionInfo.
  by rewrite H.
Qed.

(** A rejected delete request changes nothing but the request log. *)
Lemma deleteSession_rejected userToken id createReply st :
  JS.truthy_opt (access_token_of (findSession id (sessions st))) = true →
  let st' := run (deleteSession JSON_stringify userToken id None createReply) st in
  sessions st' = sessions st ∧ activeSessionInfo st' = activeSessionInfo st
  ∧ localStorage st' = localStorage st.
Proof.
  intros H.
  unfold run, deleteSession, mbind, M_bind, getSessions, getActiveSessionInfo.
  by rewrite H.
Qed.

Lemma deleteSession_last userToken s a createReply st :
  sessions st = [s] →
  activeSessionInfo st = Some a →
  session_id a = session_id s →
  JS.truthy_opt (access_token_of (Some s)) = true →
  run (deleteSession JSON_stringify userToken (session_id s) (Some tt)
         createReply) st
  = run (createNewSessionFn JSON_stringify userToken createReply)
      (afterLastDeleted st
         (Delete ("/api/v1/auth/session/" +:+ session_id s)
            ("Bearer " +:+ default "" (access_token_of (Some s))))).
Proof.
  intros Hs Ha Hid Htok.
  unfold run, deleteSession, mbind, M_bind, getSessions, getActiveSessionInfo.
  rewrite Hs, Ha. rewrite findSession_head.
  rewrite Htok. simpl.
  rewrite filter_cons_False by (intros H; by apply H).
  rewrite filter_nil. simpl.
  rewrite bool_decide_true by (by rewrite Hid).
  unfold afterLastDeleted. simpl.
  by destruct (createNewSessionFn _ _ _ _).
Qed.

(** C2 (as amended): when exactly one session exists and it is active,
    [deleteSession] of its id leaves, after settling: that session, still
    active, when the delete request is not issued (the entry has no token)
    or is rejected; exactly one session, the newly created one, which is
    active, when the delete succeeds and the self-healing creation it
    triggers succeeds (the account token is present and the creation
    request is answered); and no session and a null active pointer when
    the delete succeeds and the creation is not issued or is rejected. *)
Theorem deleteSession_last_active userToken s a deleteReply createReply st :
  sessions st = [s] →
  activeSessionInfo st = Some a →
  session_id a = session_id s →
  let st' := run (deleteSession JSON_stringify userToken (session_id s)
                    deleteReply createReply) st in
  let issued := JS.truthy_opt (access_token_of (Some s)) in
  (issued = false ∨ deleteReply = None →
   sessions st' = [s] ∧ activeSessionInfo st' = Some a)
  ∧ (∀ d, issued = true → deleteReply = Some tt →
          JS.truthy_opt userToken = true → createReply = Some d →
          let new := with_name d (JS.or_else (name d) placeholder) in
          sessions st' = [new] ∧ activeSessionInfo st' = Some new)
  ∧ (issued = true → deleteReply = Some tt →
     JS.truthy_opt userToken = false ∨ createReply = None →
     sessions st' = [] ∧ activeSessionInfo st' = None).
Proof.
  intros Hs Ha Hid st' issued. subst st' issued. split; [|split].
  - intros Hkept.
    destruct (JS.truthy_opt (access_token_of (Some s))) eqn:Htok.
    + destruct Hkept as [?| ->]; [done|].
      destruct (deleteSession_rejected userToken (session_id s) createReply st)
        as (-> & -> & _).
      { by rewrite Hs, findSession_head. }
      by rewrite Hs, Ha.
    + unfold run. rewrite deleteSession_guard.
      * simpl. by rewrite Hs, Ha.
      * by rewrite Hs, findSession_head.
  - intros d Htok -> Hu ->.
    rewrite (deleteSession_last userToken s a) by done.
    unfold run. by rewrite createNewSessionFn_ok.
  - intros Htok -> Hfail.
    rewrite (deleteSession_last userToken s a) by done.
    unfold run. destruct (JS.truthy_opt userToken) eqn:Hu.
    + destruct Hfail as [?| ->]; [done|].
      by rewrite createNewSessionFn_fails.
    + by rewrite createNewSessionFn_no_token.
Qed.

(** C9: a successful [renameSession] whose requested name is empty or
    all white space stores the placeholder name "Untitled Chat" at every
    entry of the renamed id, whatever name the server echoes; the other
    entries are unchanged. *)
Theorem renameSession_blank_name id newName data st :
  JS.allWhiteSpace newName = true →
  JS.truthy_opt (access_token_of (findSession id (sessions st))) = true →
  let st' := run (renameSession JSON_stringify id newName (Some data)) st in
  sessions st' =
    ((λ s, if String.eqb (session_id s) id
           then with_name data "Untitled Chat" else s) <$> sessions st)
  ∧ (∀ i s, sessions st !! i = Some s → session_id s = id →
            name <$> (sessions st' !! i) = Some "Untitled Chat")
  ∧ (∀ i s, sessions st !! i = Some s → session_id s ≠ id →
            sessions st' !! i = Some s).
Proof.
  intros Hws Htok st'.
  assert (Hst' : sessions st' =
    ((λ s, if String.eqb (session_id s) id
           then with_name data "Untitled Chat" else s) <$> sessions st)).
  { subst st'.
    unfold run, renameSession, mbind, M_bind, getSessions, getActiveSessionInfo.
    rewrite Htok, (trim_allWhiteSpace _ Hws). simpl.
    destruct (bool_decide _); [by rewrite switchActiveSession_run|done]. }
  split; [done|]. rewrite Hst'. split.
  - intros i s Hi Hid. rewrite list_lookup_fmap, Hi. simpl.
    rewrite <- Hid, String.eqb_refl. reflexivity.
  - intros i s Hi Hid. rewrite list_lookup_fmap, Hi. simpl.
    by destruct (String.eqb_spec (session_id s) id).
Qed.

(** C10: for a session id that is not in the list, or whose entry has no
    access token, [renameSession] and [deleteSession] return without
    issuing a request and leave the whole state (session list, active
    pointer, persisted state, request log) unchanged. *)
Theorem rename_delete_unknown_noop userToken id newName patchReply
    deleteReply createReply st :
  (∀ s, s ∈ sessions st → session_id s ≠ id) ∨
  (∃ s, findSession id (sessions st) = Some s
        ∧ JS.truthy_opt (access_token_of (Some s)) = false) →
  renameSession JSON_stringify id newName patchReply st = (tt, st)
  ∧ deleteSession JSON_stringify userToken id deleteReply createReply st
    = (tt, st).
Proof.
  intros H.
  assert (Hg : JS.truthy_opt (access_token_of (findSession id (sessions st)))
               = false).
  { destruct H as [H|(s & -> & H)]; [|done].
    by rewrite (findSession_None _ _ H). }
  split; [by apply renameSession_guard | by apply deleteSession_guard].
Qed.

End SessionFacts.

(** C1 (counterexample): the account token is valid, the list request
    returns no session and the chained creation request is rejected; the
    session list is empty once everything has settled. *)
Lemma fetchSessions_empty_when_creation_fails :
  JS.truthy_opt (Some "acct") = true
  ∧ ¬ 1 ≤ length (Session.sessions
                    (Session.run
                       (Session.fetchSessions Sample.stringify (Some "acct")
                          (Some []) None)
                       Sample.mounted)).
Proof. split; [reflexivity|]. vm_compute. lia. Qed.

Lemma fetchSessions_at_least_one_witness :
  1 ≤ length (Session.sessions
                (Session.run
                   (Session.fetchSessions Sample.stringify (Some "acct")
                      (Some []) (Some Sample.fresh))
                   Sample.mounted))
  ∧ Session.sessions
      (Session.run
         (Session.fetchSessions Sample.stringify (Some "acct") (Some []) None)
         Sample.mounted) = [].
Proof.
  split.
  - apply (fetchSessions_at_least_one Sample.stringify (Some "acct") []
             (Some Sample.fresh) Sample.mounted).
    + reflexivity.
    + right. exists Sample.fresh. reflexivity.
  - apply (fetchSessions_at_least_one Sample.stringify (Some "acct") []
             None Sample.mounted); reflexivity.
Defined.

Lemma fetchSessions_creates_after_failed_fetch_witness :
  Session.network
    (Session.run
       (Session.fetchSessions Sample.stringify (Some "acct") None None)
       Sample.mounted)
  = [Session.Get "/api/v1/auth/sessions"; Session.Post "/api/v1/auth/session"].
Proof.
  apply (fetchSessions_creates_after_failed_fetch Sample.stringify
           (Some "acct") None Sample.mounted).
  reflexivity.
Defined.

(** C2 (counterexample): one session exists and is active, the delete
    request succeeds and the creation request it triggers is rejected; no
    session is left and nothing is active. *)
Lemma deleteSession_last_leaves_none :
  let st' :=
    Session.run
      (Session.deleteSession Sample.stringify (Some "acct") "s1" (Some tt) None)
      Sample.single in
  Session.sessions Sample.single = [Sample.first]
  ∧ Session.activeSessionInfo Sample.single = Some Sample.first
  ∧ Session.sessions st' = []
  ∧ Session.activeSessionInfo st' = None.
Proof. vm_compute. done. Qed.

Lemma deleteSession_last_active_witness :
  Session.sessions
    (Session.run
       (Session.deleteSession Sample.stringify (Some "acct") "s1" (Some tt)
          (Some Sample.fresh))
       Sample.single)
  = [Session.with_name Sample.fresh "Untitled Chat"]
  ∧ Session.activeSessionInfo
      (Session.run
         (Session.deleteSession Sample.stringify (Some "acct") "s1" (Some tt)
            (Some Sample.fresh))
         Sample.single)
    = Some (Session.with_name Sample.fresh "Untitled Chat").
Proof.
  apply (deleteSession_last_active Sample.stringify (Some "acct") Sample.first
           Sample.first (Some tt) (Some Sample.fresh) Sample.single);
    reflexivity.
Defined.

Lemma renameSession_blank_name_witness :
  Session.name <$>
    (Session.sessions
       (Session.run
          (Session.renameSession Sample.stringify "s1" "   "
             (Some (Session.with_name Sample.first "   ")))
          Sample.single) !! 0%nat)
  = Some "Untitled Chat".
Proof.
  apply (renameSession_blank_name Sample.stringify "s1" "   "
           (Session.with_name Sample.first "   ") Sample.single)
    with (s := Sample.first).
  - reflexivity.
  - reflexivity.
  - reflexivity.
  - reflexivity.
Defined.

Lemma rename_delete_unknown_noop_witness :
  Session.renameSession Sample.stringify "nope" "New" (Some Sample.fresh)
    Sample.single = (tt, Sample.single)
  ∧ Session.deleteSession Sample.stringify (Some "acct") "nope" (Some tt)
      (Some Sample.fresh) Sample.single = (tt, Sample.single).
Proof.
  apply (rename_delete_unknown_noop Sample.stringify (Some "acct") "nope" "New"
           (Some Sample.fresh) (Some tt) (Some Sample.fresh) Sample.single).
  left. intros s Hs. apply list_elem_of_singleton in Hs as ->. discriminate.
Defined.

(** ** Identity session *)

Section AuthFacts.

Import Auth.

Lemma isAuthenticated_iff st :
  isAuthenticated st = true
  ↔ JS.truthy_opt (userToken st) = true ∧ is_Some (user st).
Proof.
  unfold isAuthenticated. rewrite andb_true_iff, bool_decide_eq_true. done.
Qed.

Lemma checkAuth_rejects_stored Date_parse now reply st :
  storedTokenExpiredOrAbsent Date_parse now st →
  userToken (checkAuth Date_parse now reply st) = None
  ∧ user (checkAuth Date_parse now reply st) = None.
Proof.
  unfold storedTokenExpiredOrAbsent, checkAuth. simpl.
  intros [Habs|Hexp].
  - rewrite Habs. simpl. done.
  - destruct (JS.truthy_opt (localStorage st !! "authToken")); simpl; [|done].
    destruct (localStorage st !! "authTokenExpiry") as [e|]; simpl; [|done].
    rewrite Hexp. by destruct (JS.truthy e).
Qed.

Lemma checkAuth_adopts_stored Date_parse now data st tok e :
  localStorage st !! "authToken" = Some tok →
  localStorage st !! "authTokenExpiry" = Some e →
  JS.truthy tok = true → JS.truthy e = true →
  inFuture Date_parse now e = true →
  isAuthenticated (checkAuth Date_parse now (Some data) st) = true.
Proof.
  intros Ht He Htt Het Hf. unfold checkAuth. simpl.
  rewrite Ht, He. simpl. rewrite Htt, Het, Hf. simpl.
  unfold isAuthenticated. simpl. by rewrite Htt.
Qed.

(** C3 (as amended): [isAuthenticated] is derived from the token held in
    memory and the fetched identity only. It is false whenever that token
    is absent, whether or not an identity is cached, and true exactly when
    a token and an identity both exist. The expiry is examined by
    [checkAuth] alone: after it, [isAuthenticated] is false when the
    persisted token is absent or its expiry is absent, unreadable or not
    strictly in the future. *)
Theorem isAuthenticated_token_and_identity :
  (∀ st, JS.truthy_opt (userToken st) = false → isAuthenticated st = false)
  ∧ (∀ st, isAuthenticated st = true
           ↔ JS.truthy_opt (userToken st) = true ∧ is_Some (user st))
  ∧ (∀ Date_parse now reply st,
       storedTokenExpiredOrAbsent Date_parse now st →
       isAuthenticated (checkAuth Date_parse now reply st) = false).
Proof.
  split; [|split].
  - intros st H. unfold isAuthenticated. by rewrite H.
  - apply isAuthenticated_iff.
  - intros Date_parse now reply st H.
    destruct (checkAuth_rejects_stored Date_parse now reply st H) as [Ht _].
    unfold isAuthenticated. by rewrite Ht.
Qed.

End AuthFacts.

(** C3 (counterexample): after [login] with an expiry in the past and a
    successful profile fetch, the stored token is expired and
    [isAuthenticated] is true. *)
Lemma isAuthenticated_with_expired_token :
  let st := Auth.login "acct" "2000-01-01T00:00:00.000Z" (Some Sample.someone)
              Sample.loggedOut in
  Auth.storedTokenExpiredOrAbsent Sample.parseDate Sample.today st
  ∧ Auth.isAuthenticated st = true.
Proof. split; [right|]; vm_compute; reflexivity. Qed.

Lemma isAuthenticated_token_and_identity_witness :
  Auth.isAuthenticated
    (Auth.checkAuth Sample.parseDate Sample.today (Some Sample.someone)
       (Auth.login "acct" "2000-01-01T00:00:00.000Z" (Some Sample.someone)
          Sample.loggedOut))
  = false.
Proof.
  apply isAuthenticated_token_and_identity.
  right. vm_compute. reflexivity.
Defined.

(** A persisted token whose expiry is in the future is adopted. *)
Example checkAuth_adopts_ex :
  Auth.isAuthenticated
    (Auth.checkAuth Sample.parseDate Sample.today (Some Sample.someone)
       (Auth.login "acct" "2030-01-01T00:00:00.000Z" None Sample.loggedOut))
  = true.
Proof. vm_compute. reflexivity. Qed.

(** ** Request router *)

Section RouterFacts.

Import Router.

Variable parse_access_token : string → option (option string).

Lemma startsWith_cons_inv a p u :
  JS.startsWith (String a p) u = true →
  ∃ u', u = String a u' ∧ JS.startsWith p u' = true.
Proof.
  unfold JS.startsWith. destruct u as [|b u]; [discriminate|].
  unfold String.prefix; fold String.prefix.
  destruct (ascii_dec a b); [subst; eauto | discriminate].
Qed.

Lemma sessions_url_not_chatbot u :
  JS.startsWith "/api/v1/auth/sessions" u = true →
  JS.startsWith "/api/v1/chatbot" u = false.
Proof.
  intros H.
  repeat (apply startsWith_cons_inv in H as (? & -> & H)).
  reflexivity.
Qed.

(** The interceptor either returns the config as it is, or sets the
    Authorization header to the selected token. *)
Lemma interceptor_cases ls config :
  interceptor parse_access_token ls config = config
  ∨ ∃ t, selectToken parse_access_token ls config = Some t
         ∧ JS.truthy t = true
         ∧ JS.truthy_opt (Authorization config) = false
         ∧ interceptor parse_access_token ls config =
             {| url := url config; method := method config;
                headers := <["Authorization" := "Bearer " +:+ t]>
                             (headers config);
                data := data config |}.
Proof.
  unfold interceptor.
  destruct (selectToken parse_access_token ls config) as [t|]; simpl; [|by left].
  destruct (JS.truthy t) eqn:Ht; simpl; [|by left].
  destruct (JS.truthy_opt (Authorization config)) eqn:Ha; simpl; [by left|].
  right. exists t. done.
Qed.

Lemma selectToken_chatbot ls config :
  JS.startsWith "/api/v1/chatbot" (default "" (url config)) = true →
  selectToken parse_access_token ls config
  = activeSessionToken parse_access_token ls.
Proof.
  intros H. unfold selectToken.
  replace (JS.or_else (default "" (url config)) "")
    with (default "" (url config)) by (by destruct (default "" (url config))).
  by rewrite H.
Qed.

Lemma selectToken_sessions ls config :
  JS.startsWith "/api/v1/auth/sessions" (default "" (url config)) = true →
  selectToken parse_access_token ls config
  = if negb (bool_decide (JS.toLowerCase <$> method config = Some "patch"))
    then ls !! "authToken" else None.
Proof.
  intros H. unfold selectToken.
  replace (JS.or_else (default "" (url config)) "")
    with (default "" (url config)) by (by destruct (default "" (url config))).
  rewrite (sessions_url_not_chatbot _ H), H.
  by rewrite orb_true_r, orb_true_l.
Qed.

(** C6: with no credential set by the caller, a chatbot call gets the
    persisted active session's token or nothing, and what it gets does not
    depend on the stored account token; a session-listing call gets the
    stored account token or nothing, and what it gets does not depend on
    the persisted active session. *)
Theorem router_token_scopes ls config :
  JS.truthy_opt (Authorization config) = false →
  (JS.startsWith "/api/v1/chatbot" (default "" (url config)) = true →
     (interceptor parse_access_token ls config = config
      ∨ ∃ t, activeSessionToken parse_access_token ls = Some t
             ∧ Authorization (interceptor parse_access_token ls config)
               = Some ("Bearer " +:+ t))
     ∧ ∀ ls', ls' !! "activeSessionInfo" = ls !! "activeSessionInfo" →
              interceptor parse_access_token ls' config
              = interceptor parse_access_token ls config)
  ∧ (JS.startsWith "/api/v1/auth/sessions" (default "" (url config)) = true →
     (interceptor parse_access_token ls config = config
      ∨ ∃ t, ls !! "authToken" = Some t
             ∧ Authorization (interceptor parse_access_token ls config)
               = Some ("Bearer " +:+ t))
     ∧ ∀ ls', ls' !! "authToken" = ls !! "authToken" →
              interceptor parse_access_token ls' config
              = interceptor parse_access_token ls config).
Proof.
  intros Hnone. split; intros Hurl; split.
  - destruct (interceptor_cases ls config) as [?|(t & Hsel & _ & _ & ->)];
      [by left|right].
    exists t. rewrite selectToken_chatbot in Hsel by done. split; [done|].
    unfold Authorization. simpl. by rewrite lookup_insert_eq.
  - intros ls' Hls'. unfold interceptor.
    rewrite !selectToken_chatbot by done.
    unfold activeSessionToken. by rewrite Hls'.
  - destruct (interceptor_cases ls config) as [?|(t & Hsel & _ & _ & ->)];
      [by left|right].
    exists t. rewrite selectToken_sessions in Hsel by done.
    destruct (negb _); [|done]. split; [done|].
    unfold Authorization. simpl. by rewrite lookup_insert_eq.
  - intros ls' Hls'. unfold interceptor.
    rewrite !selectToken_sessions by done. by rewrite Hls'.
Qed.

(** C7 (as amended): when the caller has set a non-empty Authorization
    header, under exactly that name, the interceptor returns the request
    config as it received it, header included, whatever the routing table
    selects. A header that is the empty string, or that is set under another
    spelling, counts as unset: the interceptor then sets Authorization to
    the bearer form of the token the table selects when that token is not
    empty, and leaves it alone otherwise. In every case the URL, the method,
    the body and the other headers are unchanged. *)
Theorem router_keeps_caller_credential ls config :
  (JS.truthy_opt (Authorization config) = true →
   interceptor parse_access_token ls config = config)
  ∧ (JS.truthy_opt (Authorization config) = false →
     Authorization (interceptor parse_access_token ls config)
     = if JS.truthy_opt (selectToken parse_access_token ls config)
       then Some ("Bearer " +:+
                  default "" (selectToken parse_access_token ls config))
       else Authorization config)
  ∧ url (interceptor parse_access_token ls config) = url config
  ∧ method (interceptor parse_access_token ls config) = method config
  ∧ data (interceptor parse_access_token ls config) = data config
  ∧ ∀ k, k ≠ "Authorization" →
         headers (interceptor parse_access_token ls config) !! k
         = headers config !! k.
Proof.
  split; [|split].
  - intros H. unfold interceptor. rewrite H.
    by rewrite andb_false_r.
  - intros H. unfold interceptor. rewrite H, andb_true_r.
    destruct (JS.truthy_opt (selectToken parse_access_token ls config));
      [|done].
    unfold Authorization. simpl. by rewrite lookup_insert_eq.
  - destruct (interceptor_cases ls config) as [->|(t & _ & _ & _ & ->)];
      [done|]. simpl. repeat split; try done.
    intros k Hk. by rewrite lookup_insert_ne.
Qed.

End RouterFacts.

Lemma router_token_scopes_witness :
  Router.Authorization
    (Router.interceptor Sample.parseAccessToken Sample.store Sample.chatbotGet)
  = Some "Bearer sess-1"
  ∧ Router.Authorization
      (Router.interceptor Sample.parseAccessToken Sample.store Sample.sessionsGet)
    = Some "Bearer acct"
  ∧ Router.interceptor Sample.parseAccessToken
      (<["authToken" := "other"]> Sample.store) Sample.chatbotGet
    = Router.interceptor Sample.parseAccessToken Sample.store Sample.chatbotGet.
Proof.
  split; [vm_compute; reflexivity|]. split; [vm_compute; reflexivity|].
  destruct (router_token_scopes Sample.parseAccessToken Sample.store
              Sample.chatbotGet) as [Hchat _]; [reflexivity|].
  destruct Hchat as [_ Hdep]; [reflexivity|].
  apply Hdep. reflexivity.
Defined.

(** C7 (counterexample): on a session-listing call the caller has set
    the Authorization header explicitly, to the empty string; the
    interceptor overwrites it with the account token. A credential set
    under the lower-case name is not seen either: the interceptor adds an
    Authorization header beside it. *)
Lemma router_overwrites_empty_caller_header :
  let explicit :=
    Router.mkConfig (Some "/api/v1/auth/sessions") (Some "get")
      (<["Authorization" := ""]> ∅) None in
  let lower :=
    Router.mkConfig (Some "/api/v1/auth/sessions") (Some "get")
      (<["authorization" := "Bearer sess-1"]> ∅) None in
  Router.Authorization explicit = Some ""
  ∧ Router.Authorization
      (Router.interceptor Sample.parseAccessToken Sample.store explicit)
    = Some "Bearer acct"
  ∧ Router.headers
      (Router.interceptor Sample.parseAccessToken Sample.store lower)
    = <["Authorization" := "Bearer acct"]>
        (<["authorization" := "Bearer sess-1"]> ∅).
Proof. repeat split; vm_compute; reflexivity. Qed.

Lemma router_keeps_caller_credential_witness :
  Router.interceptor Sample.parseAccessToken Sample.store Sample.renamePatch
  = Sample.renamePatch
  ∧ Router.interceptor Sample.parseAccessToken Sample.store Sample.deleteCall
    = Sample.deleteCall
  ∧ Router.Authorization
      (Router.interceptor Sample.parseAccessToken Sample.store
         (Router.mkConfig (Some "/api/v1/auth/sessions") (Some "get")
            (<["Authorization" := ""]> ∅) None))
    = Some "Bearer acct".
Proof.
  split; [|split].
  - apply (router_keeps_caller_credential Sample.parseAccessToken Sample.store
             Sample.renamePatch). reflexivity.
  - apply (router_keeps_caller_credential Sample.parseAccessToken Sample.store
             Sample.deleteCall). reflexivity.
  - apply (router_keeps_caller_credential Sample.parseAccessToken Sample.store
             (Router.mkConfig (Some "/api/v1/auth/sessions") (Some "get")
                (<["Authorization" := ""]> ∅) None)). reflexivity.
Defined.

(** ** Stream consumer *)

Section ChatFacts.

Import Chat.

Lemma last_snoc_msg (pre : list Message) m : last (pre ++ [m]) = Some m.
Proof. apply last_snoc. Qed.

Lemma removelast_snoc (pre : list Message) m : removelast (pre ++ [m]) = pre.
Proof. apply removelast_last. Qed.

Lemma appendDelta_placeholder pre m delta :
  role m = assistant →
  appendDelta delta (pre ++ [m])
  = pre ++ [{| role := assistant; content := content m +:+ delta |}].
Proof.
  intros Hr. unfold appendDelta.
  rewrite last_snoc_msg, removelast_snoc, Hr.
  by rewrite bool_decide_true.
Qed.

Lemma append_empty_r (s : string) : s +:+ "" = s.
Proof. induction s; simpl; [done|]. unfold String.app in *. simpl. by f_equal. Qed.

Lemma append_assoc_str (a b c : string) : (a +:+ b) +:+ c = a +:+ (b +:+ c).
Proof. induction a; simpl; [done|]. unfold String.app in *. simpl. by f_equal. Qed.

Lemma applyChunk_placeholder pre m f :
  role m = assistant →
  applyChunk f (pre ++ [m])
  = pre ++ [{| role := assistant; content := content m +:+ delta f |}].
Proof.
  intros Hr. unfold applyChunk, delta. destruct (StreamChunk.done f).
  - rewrite append_empty_r. destruct m as [r c]. simpl in *. by subst.
  - by apply appendDelta_placeholder.
Qed.

Lemma applyChunks_placeholder frames pre m :
  role m = assistant →
  foldl (λ msgs f, applyChunk f msgs) (pre ++ [m]) frames
  = pre ++ [{| role := assistant; content := content m +:+ deltas frames |}].
Proof.
  revert m. induction frames as [|f frames IH]; intros m Hr; simpl.
  - rewrite append_empty_r. destruct m as [r c]. simpl in *. by subst.
  - rewrite applyChunk_placeholder by done. rewrite IH by done. simpl.
    by rewrite append_assoc_str.
Qed.

(** *** Splitting a buffer that holds exactly one record *)

Lemma rev_app_rev_app (a b c : string) :
  String.rev_app (String.rev_app a b) c = String.rev_app b (a +:+ c).
Proof.
  revert b c. induction a as [|x a IH]; intros b c; simpl; [done|].
  by rewrite IH.
Qed.

Lemma rev_rev (w : string) : String.rev (String.rev w) = w.
Proof.
  unfold String.rev. rewrite rev_app_rev_app. simpl. apply append_empty_r.
Qed.

Lemma split_go_record w cur :
  noLineFeed w = true →
  JS.split_go separator 0 cur (w +:+ separator)
  = [String.rev (String.rev_app w cur); ""].
Proof.
  revert cur. induction w as [|c w IH]; intros cur Hw.
  - reflexivity.
  - simpl in Hw. apply andb_prop in Hw as [Hc Hw].
    apply negb_true_iff, Ascii.eqb_neq in Hc.
    change (String c w +:+ separator) with (String c (w +:+ separator)).
    unfold JS.split_go; fold JS.split_go.
    unfold separator at 1. unfold String.prefix; fold String.prefix.
    destruct (ascii_dec "010" c) as [Heq|_]; [congruence|].
    rewrite IH by done. reflexivity.
Qed.

Lemma split_record w :
  noLineFeed w = true → JS.split separator (w +:+ separator) = [w; ""].
Proof.
  intros Hw. unfold JS.split. rewrite split_go_record by done.
  change (String.rev_app w "") with (String.rev w). by rewrite rev_rev.
Qed.

Section WithParser.

Variable JSON_parse : string → option StreamChunk.t.

Lemma processLine_record msgs p f :
  JSON_parse p = Some f →
  processLine JSON_parse msgs ("data: " +:+ p) = applyChunk f msgs.
Proof.
  intros Hp. unfold processLine.
  replace (JS.startsWith "data: " ("data: " +:+ p)) with true
    by (by destruct p).
  change (JS.substring 6 ("data: " +:+ p)) with p.
  by rewrite Hp.
Qed.

Lemma readValue_record msgs p f :
  wellFormed JSON_parse (p, f) →
  readValue JSON_parse ("", msgs) (wire p) = ("", applyChunk f msgs).
Proof.
  intros [Hlf Hp]. simpl in *. unfold readValue, wire.
  change ("" +:+ "data: " +:+ p +:+ separator)
    with (("data: " +:+ p) +:+ separator).
  rewrite split_record by done. simpl.
  by rewrite (processLine_record _ _ f).
Qed.

Lemma readValues_records recs msgs :
  Forall (wellFormed JSON_parse) recs →
  foldl (readValue JSON_parse) ("", msgs) (wire <$> recs.*1)
  = ("", foldl (λ msgs f, applyChunk f msgs) msgs recs.*2).
Proof.
  intros H. revert msgs. induction H as [|[p f] recs Hr _ IH]; intros msgs.
  - reflexivity.
  - rewrite !fmap_cons. cbn [foldl fst snd].
    rewrite (readValue_record _ _ f) by done. apply IH.
Qed.

(** C4 (as amended): while streaming, the content of every well-formed
    frame parsed from a complete record is appended to the assistant
    placeholder's text in arrival order when the frame's done flag is
    false; a frame whose done flag is true is informational only and
    its content is not appended. In particular, after the frames
    [{content:"Hel",done:false}] and [{content:"lo",done:false}] and
    end of stream, the assistant message is exactly "Hello". *)
Theorem stream_content_in_order recs fin pre m :
  Forall (wellFormed JSON_parse) recs →
  role m = assistant →
  readLoop JSON_parse (wire <$> recs.*1) fin (pre ++ [m])
  = (pre ++ [{| role := assistant;
                content := content m +:+ deltas recs.*2 |}],
     match fin with EndOfData => None | ReadRejects e => Some e end)
  ∧ (recs.*2 = [StreamChunk.mk "Hel" false; StreamChunk.mk "lo" false] →
     content m = "" → fin = EndOfData →
     readLoop JSON_parse (wire <$> recs.*1) fin (pre ++ [m])
     = (pre ++ [{| role := assistant; content := "Hello" |}], None)).
Proof.
  intros Hrecs Hr.
  assert (Hloop : readLoop JSON_parse (wire <$> recs.*1) fin (pre ++ [m])
    = (pre ++ [{| role := assistant;
                  content := content m +:+ deltas recs.*2 |}],
       match fin with EndOfData => None | ReadRejects e => Some e end)).
  { unfold readLoop. rewrite readValues_records by done.
    rewrite applyChunks_placeholder by done. by destruct fin. }
  split; [done|].
  intros Hfs Hm ->. rewrite Hloop, Hfs, Hm. reflexivity.
Qed.

Variable baseURL : string.
Variable activeSessionInfo : option Session.SessionInfo.



(** Every request [handleSubmit] issues carries the token of the
    active session held in the session context. *)
Lemma handleSubmit_fetch_authorization outcome st :
  let st' := (handleSubmit JSON_parse baseURL activeSessionInfo outcome st).1 in
  fetched st' = fetched st
  ∨ ∃ t, Session.access_token_of activeSessionInfo = Some t
         ∧ fetched st' = fetched st ++ [streamRequest baseURL t st].
Proof.
  unfold handleSubmit.
  destruct (_ || _ || _); [by left|].
  unfold try_catch_finally, mbind, C_bind. simpl.
  destruct (Session.access_token_of activeSessionInfo) as [t|];
    simpl; [|by left].
  destruct (JS.truthy t); simpl; [|by left].
  right. exists t. split; [done|]. unfold streamRequest.
  destruct outcome as [e|[json status| |values fin]]; simpl; try done.
  destruct (readLoop _ _ _ _) as [msgs [e|]]; reflexivity.
Qed.

Lemma reportError_placeholder message pre m :
  role m = assistant →
  reportError message (pre ++ [m])
  = if bool_decide (content m = "")
    then pre ++ [{| role := assistant;
                    content := "Sorry, an error occurred: " +:+ message |}]
    else pre ++ [m; {| role := assistant;
                       content := "Sorry, an error occurred: " +:+ message |}].
Proof.
  intros Hr. unfold reportError.
  rewrite last_snoc_msg, removelast_snoc, Hr, bool_decide_true by done.
  destruct (content m) as [|c r]; simpl; [done|].
  by rewrite <- app_assoc.
Qed.

End WithParser.

End ChatFacts.

(** C4 (counterexample): a well-formed frame marked done carries content,
    and the read loop does not append it: the reply stays "Hel". *)
Lemma done_frame_content_not_appended :
  Sample.parseFrame (Sample.payload (StreamChunk.mk "lo" true))
  = Some (StreamChunk.mk "lo" true)
  ∧ Chat.readLoop Sample.parseFrame
      [Sample.record (StreamChunk.mk "Hel" false);
       Sample.record (StreamChunk.mk "lo" true)]
      Chat.EndOfData Sample.turn
    = ([Chat.mkMessage Chat.user "hi"; Chat.mkMessage Chat.assistant "Hel"],
       None).
Proof. split; vm_compute; reflexivity. Qed.

Lemma stream_content_in_order_witness :
  Chat.readLoop Sample.parseFrame
    [Sample.record (StreamChunk.mk "Hel" false);
     Sample.record (StreamChunk.mk "lo" false)]
    Chat.EndOfData Sample.turn
  = ([Chat.mkMessage Chat.user "hi"; Chat.mkMessage Chat.assistant "Hello"],
     None).
Proof.
  destruct (stream_content_in_order Sample.parseFrame
              [(Sample.payload (StreamChunk.mk "Hel" false),
                StreamChunk.mk "Hel" false);
               (Sample.payload (StreamChunk.mk "lo" false),
                StreamChunk.mk "lo" false)]
              Chat.EndOfData
              [Chat.mkMessage Chat.user "hi"]
              (Chat.mkMessage Chat.assistant "")) as [_ Hello].
  - repeat constructor.
  - reflexivity.
  - apply Hello; reflexivity.
Defined.

(** A record split across two reads is applied once it is complete. *)
Example stream_split_across_reads :
  Chat.readLoop Sample.parseFrame
    ["data: " +:+ Sample.payload (StreamChunk.mk "Hel" false) +:+ String "010" "";
     String "010" "da";
     "ta: " +:+ Sample.payload (StreamChunk.mk "lo" false) +:+ Chat.separator]
    Chat.EndOfData Sample.turn
  = ([Chat.mkMessage Chat.user "hi"; Chat.mkMessage Chat.assistant "Hello"],
     None).
Proof. vm_compute. reflexivity. Qed.

(** A malformed record between two valid ones is dropped; the valid ones
    are applied. *)
Example stream_malformed_record_dropped :
  Chat.readLoop Sample.parseFrame
    [Sample.record (StreamChunk.mk "Hel" false);
     Chat.wire "{oops";
     Sample.record (StreamChunk.mk "lo" false)]
    Chat.EndOfData Sample.turn
  = ([Chat.mkMessage Chat.user "hi"; Chat.mkMessage Chat.assistant "Hello"],
     None).
Proof. vm_compute. reflexivity. Qed.

(** Cancelling after one frame keeps the partial reply and adds no error
    message. *)
Example stream_cancelled_keeps_partial :
  Chat.handleSubmit Sample.parseFrame "" (Some Sample.first)
    (inr (Chat.Body [Sample.record (StreamChunk.mk "Hi" false)]
            (Chat.ReadRejects Sample.aborted)))
    Sample.typed
  = (Chat.mkState "" false
       [Chat.mkMessage Chat.user "hi"; Chat.mkMessage Chat.assistant "Hi"]
       [Chat.mkFetch "/api/v1/chatbot/chat/stream" "Bearer sess-1"
          [Chat.mkMessage Chat.user "hi"]],
     inr tt).
Proof. vm_compute. reflexivity. Qed.


(** A failed request before any byte arrives replaces the empty
    placeholder. *)
Example failure_before_content_replaces_placeholder :
  Chat.messages
    (Chat.handleSubmit Sample.parseFrame "" (Some Sample.first)
       (inr (Chat.NotOk (Some None) 500)) Sample.typed).1
  = [Chat.mkMessage Chat.user "hi";
     Chat.mkMessage Chat.assistant
       "Sorry, an error occurred: HTTP error! status: 500"].
Proof. vm_compute. reflexivity. Qed.

(** * Further properties of the code *)

(** ** Splitting a text read in pieces *)

Section SplitFacts.

Lemma prefix_length p s :
  String.prefix p s = true → String.length p ≤ String.length s.
Proof.
  revert s. induction p as [|a p IH]; intros s H; simpl; [lia|].
  destruct s as [|b s]; [discriminate|].
  unfold String.prefix in H; fold String.prefix in H.
  destruct (ascii_dec a b); [|discriminate].
  apply IH in H. simpl. lia.
Qed.

Lemma prefix_app p s b :
  String.prefix p s = true → String.prefix p (s +:+ b) = true.
Proof.
  revert s. induction p as [|a p IH]; intros s H.
  - by destruct (s +:+ b).
  - destruct s as [|c s]; [discriminate|].
    change (String c s +:+ b) with (String c (s +:+ b)).
    unfold String.prefix in *; fold String.prefix in *.
    destruct (ascii_dec a c); [|discriminate]. by apply IH.
Qed.

Lemma prefix_app_inv p s b :
  String.prefix p (s +:+ b) = true → String.length p ≤ String.length s →
  String.prefix p s = true.
Proof.
  revert s. induction p as [|a p IH]; intros s H Hlen.
  - by destruct s.
  - destruct s as [|c s]; [simpl in Hlen; lia|].
    change (String c s +:+ b) with (String c (s +:+ b)) in H.
    unfold String.prefix in *; fold String.prefix in *.
    destruct (ascii_dec a c); [|discriminate].
    apply IH; [done|]. simpl in Hlen. lia.
Qed.

Lemma rev_app_app (s t u : string) :
  String.rev_app s (t +:+ u) = String.rev_app s t +:+ u.
Proof. revert t. induction s as [|c s IH]; intros t; simpl; [done|]. apply (IH (String c t)). Qed.

Lemma rev_rev_app (a cur : string) :
  String.rev (String.rev_app a cur) = String.rev cur +:+ a.
Proof.
  unfold String.rev. rewrite rev_app_rev_app, append_empty_r.
  by rewrite <- rev_app_app.
Qed.

Lemma rev_cons_app c cur (s : string) :
  String.rev (String c cur) +:+ s = String.rev cur +:+ String c s.
Proof.
  unfold String.rev. simpl. rewrite <- !rev_app_app. reflexivity.
Qed.

Variable x : ascii.
Variable sep' : string.

Abbreviation sep := (String x sep').

Lemma split_go_nonempty skip cur s : JS.split_go sep skip cur s ≠ [].
Proof.
  revert skip cur. induction s as [|c s IH]; intros skip cur.
  - done.
  - unfold JS.split_go; fold JS.split_go.
    destruct skip; [|apply IH].
    destruct (String.prefix _ _); [done|apply IH].
Qed.

Lemma split_go_short cur s :
  String.length s < String.length sep →
  JS.split_go sep 0 cur s = [String.rev (String.rev_app s cur)].
Proof.
  revert cur. induction s as [|c s IH]; intros cur Hlen; [done|].
  unfold JS.split_go; fold JS.split_go.
  destruct (String.prefix sep (String c s)) eqn:Hp.
  - apply prefix_length in Hp. lia.
  - apply IH. simpl in *. lia.
Qed.

Lemma split_go_skip k cur s b :
  k ≤ String.length s →
  JS.split_go sep k cur (s +:+ b) = JS.split_go sep 0 cur (JS.substring k s +:+ b).
Proof.
  revert s. induction k as [|k IH]; intros s Hk.
  - by destruct s.
  - destruct s as [|c s]; [simpl in Hk; lia|].
    change (String c s +:+ b) with (String c (s +:+ b)).
    simpl. apply IH. simpl in Hk. lia.
Qed.

Lemma substring_length k s : String.length (JS.substring k s) ≤ String.length s.
Proof.
  revert s. induction k as [|k IH]; intros s; [by destruct s|].
  destruct s as [|c s]; simpl; [lia|]. specialize (IH s). lia.
Qed.

Abbreviation resumes := (Transport.resumes sep).

Lemma split_go_app n :
  ∀ a cur b,
    String.length a ≤ n →
    resumes cur (a +:+ b) →
    JS.split_go sep 0 cur (a +:+ b)
    = removelast (JS.split_go sep 0 cur a)
      ++ JS.split_go sep 0 "" (default "" (last (JS.split_go sep 0 cur a)) +:+ b).
Proof.
  induction n as [|n IH]; intros a cur b Hn Hres.
  - destruct a; [|simpl in Hn; lia]. simpl. by rewrite <- Hres.
  - destruct a as [|c a]; [simpl; by rewrite <- Hres|].
    destruct (String.prefix sep (String c a)) eqn:Hp.
    + (* a separator lies wholly inside the text read so far *)
      pose proof (prefix_app _ _ b Hp) as Hpb.
      pose proof (prefix_length _ _ Hp) as Hlen. simpl in Hlen, Hn.
      change (String c a +:+ b) with (String c (a +:+ b)) in *.
      unfold JS.split_go; fold JS.split_go. rewrite Hp, Hpb.
      replace (String.length sep - 1) with (String.length sep') by (simpl; lia).
      rewrite split_go_skip by lia.
      rewrite <- (append_empty_r a) at 2 3.
      rewrite (split_go_skip _ _ a "") by lia. rewrite append_empty_r.
      pose proof (substring_length (String.length sep') a) as Hsub.
      rewrite (IH (JS.substring (String.length sep') a) "" b) by (lia || done).
      pose proof (split_go_nonempty 0 "" (JS.substring (String.length sep') a)).
      destruct (JS.split_go sep 0 "" (JS.substring (String.length sep') a))
        as [|p ps] eqn:Hps; [done|].
      reflexivity.
    + destruct (String.prefix sep (String c a +:+ b)) eqn:Hpb.
      * (* a separator straddles the end of the text read so far *)
        assert (String.length (String c a) < String.length sep) as Hshort.
        { destruct (decide (String.length sep ≤ String.length (String c a)))
            as [Hle|]; [|lia].
          pose proof (prefix_app_inv _ _ _ Hpb Hle). congruence. }
        rewrite (split_go_short cur (String c a)) by done.
        simpl removelast. simpl last.
        simpl default. rewrite rev_rev_app, append_assoc_str, rev_cons_app.
        symmetry. exact Hres.
      * (* no separator starts here *)
        change (String c a +:+ b) with (String c (a +:+ b)) in *.
        unfold JS.split_go; fold JS.split_go. rewrite Hp, Hpb.
        apply IH; [simpl in Hn; lia|].
        unfold Transport.resumes in *. rewrite rev_cons_app, Hres.
        unfold JS.split_go; fold JS.split_go. by rewrite Hpb.
Qed.

End SplitFacts.

(** ** The read loop over a body read in pieces *)

Section ChunkFacts.

Import Chat.

Variable JSON_parse : string → option StreamChunk.t.

Lemma separator_split_app a b :
  JS.split separator (a +:+ b)
  = removelast (JS.split separator a)
    ++ JS.split separator (default "" (last (JS.split separator a)) +:+ b).
Proof.
  unfold JS.split, separator.
  apply (split_go_app _ _ (String.length a)); [lia|reflexivity].
Qed.

Lemma separator_split_nonempty s : JS.split separator s ≠ [].
Proof. apply split_go_nonempty. Qed.

Lemma snoc_last_removelast {A} (l : list A) :
  l ≠ [] → ∃ r, last l = Some r ∧ l = removelast l ++ [r].
Proof.
  intros H. destruct (exists_last H) as (l' & r & ->).
  exists r. by rewrite last_snoc, removelast_last.
Qed.

(** The piece left in the buffer holds no separator. *)
Lemma separator_split_last s :
  JS.split separator (default "" (last (JS.split separator s)))
  = [default "" (last (JS.split separator s))].
Proof.
  pose proof (separator_split_app s "") as H.
  rewrite !append_empty_r in H.
  destruct (snoc_last_removelast _ (separator_split_nonempty s))
    as (r & Hr & Hs).
  rewrite Hr in *. simpl in *. rewrite Hs in H at 1.
  by apply app_inv_head in H.
Qed.

Lemma last_app_nonempty {A} (l k : list A) : k ≠ [] → last (l ++ k) = last k.
Proof.
  intros H. destruct (exists_last H) as (k' & r & ->).
  by rewrite app_assoc, !last_snoc.
Qed.

Lemma removelast_app_nonempty {A} (l k : list A) :
  k ≠ [] → removelast (l ++ k) = l ++ removelast k.
Proof. intros H. by apply removelast_app. Qed.

Lemma readValues_text values : ∀ buffer msgs,
  JS.split separator buffer = [buffer] →
  foldl (readValue JSON_parse) (buffer, msgs) values
  = (default "" (last (JS.split separator (buffer +:+ Transport.text values))),
     foldl (processLine JSON_parse) msgs
       (removelast (JS.split separator (buffer +:+ Transport.text values)))).
Proof.
  induction values as [|v values IH]; intros buffer msgs Hb.
  - simpl. by rewrite append_empty_r, Hb.
  - cbn [foldl]. unfold readValue at 2. unfold JS.pop.
    set (P := JS.split separator (buffer +:+ v)).
    replace (JS.or_else (default "" (last P)) "") with (default "" (last P))
      by (by destruct (default "" (last P))).
    rewrite IH by apply separator_split_last.
    change (Transport.text (v :: values)) with (v +:+ Transport.text values).
    rewrite <- append_assoc_str, (separator_split_app (buffer +:+ v)).
    fold P.
    pose proof (separator_split_nonempty
                  (default "" (last P) +:+ Transport.text values)) as HQ.
    by rewrite last_app_nonempty, removelast_app_nonempty, foldl_app.
Qed.

Lemma readLoop_text values fin msgs :
  readLoop JSON_parse values fin msgs
  = (foldl (processLine JSON_parse) msgs
       (removelast (JS.split separator (Transport.text values))),
     match fin with EndOfData => None | ReadRejects e => Some e end).
Proof.
  unfold readLoop. rewrite readValues_text by done. by destruct fin.
Qed.

(** X1: the message list the read loop leaves depends on the text of the
    body only, not on how the reads cut it: it is the list obtained by
    applying, in order, every piece of the whole text that is followed by
    a separator. *)
Theorem readLoop_any_chunking values fin msgs :
  readLoop JSON_parse values fin msgs
  = readLoop JSON_parse [Transport.text values] fin msgs
  ∧ (readLoop JSON_parse values fin msgs).1
    = foldl (processLine JSON_parse) msgs
        (removelast (JS.split separator (Transport.text values))).
Proof.
  split.
  - rewrite !readLoop_text. simpl. by rewrite append_empty_r.
  - by rewrite readLoop_text.
Qed.

End ChunkFacts.

Section RecordFacts.

Import Chat.

Variable JSON_parse : string → option StreamChunk.t.

Lemma split_go_noLineFeed w cur :
  noLineFeed w = true →
  JS.split_go separator 0 cur w = [String.rev (String.rev_app w cur)].
Proof.
  revert cur. induction w as [|c w IH]; intros cur Hw; [done|].
  simpl in Hw. apply andb_prop in Hw as [Hc Hw].
  apply negb_true_iff, Ascii.eqb_neq in Hc.
  unfold JS.split_go; fold JS.split_go.
  unfold separator at 1. unfold String.prefix; fold String.prefix.
  destruct (ascii_dec "010" c) as [Heq|_]; [congruence|].
  by apply IH.
Qed.

Lemma split_go_record_then w cur rest :
  noLineFeed w = true →
  JS.split_go separator 0 cur (w +:+ separator +:+ rest)
  = String.rev (String.rev_app w cur) :: JS.split_go separator 0 "" rest.
Proof.
  revert cur. induction w as [|c w IH]; intros cur Hw.
  - by destruct rest.
  - simpl in Hw. apply andb_prop in Hw as [Hc Hw].
    apply negb_true_iff, Ascii.eqb_neq in Hc.
    change (String c w +:+ separator +:+ rest)
      with (String c (w +:+ separator +:+ rest)).
    unfold JS.split_go; fold JS.split_go.
    unfold separator at 1. unfold String.prefix; fold String.prefix.
    destruct (ascii_dec "010" c) as [Heq|_]; [congruence|].
    by rewrite IH.
Qed.

Lemma split_records_tail payloads tail :
  Forall (λ p, noLineFeed p = true) payloads →
  noLineFeed tail = true →
  JS.split separator (Transport.text (wire <$> payloads) +:+ tail)
  = ((λ p, "data: " +:+ p) <$> payloads) ++ [tail].
Proof.
  intros Hps Htail. induction Hps as [|p payloads Hp _ IH].
  - change (JS.split separator (Transport.text (wire <$> []) +:+ tail))
      with (JS.split_go separator 0 "" tail).
    rewrite split_go_noLineFeed by done.
    change (String.rev_app tail "") with (String.rev tail). by rewrite rev_rev.
  - rewrite !fmap_cons.
    change (Transport.text (wire p :: (wire <$> payloads)))
      with (wire p +:+ Transport.text (wire <$> payloads)).
    unfold wire at 1. rewrite !append_assoc_str.
    rewrite <- (append_assoc_str "data: " p).
    unfold JS.split at 1.
    rewrite (split_go_record_then ("data: " +:+ p)) by done.
    change (String.rev_app ("data: " +:+ p) "")
      with (String.rev ("data: " +:+ p)).
    rewrite rev_rev. fold (JS.split separator
      (Transport.text (wire <$> payloads) +:+ tail)).
    by rewrite IH.
Qed.

Lemma processLines_records recs msgs :
  Forall (wellFormed JSON_parse) recs →
  foldl (processLine JSON_parse) msgs ((λ p, "data: " +:+ p) <$> recs.*1)
  = foldl (λ msgs f, applyChunk f msgs) msgs recs.*2.
Proof.
  intros H. revert msgs. induction H as [|[p f] recs [_ Hp] _ IH]; intros msgs.
  - reflexivity.
  - rewrite !fmap_cons. cbn [foldl fst snd].
    rewrite (processLine_record JSON_parse msgs p f) by done. apply IH.
Qed.

(** X2: however the reads cut the body, when its text is a sequence of
    well-formed records followed by a tail that no separator ends, the
    frames' contents are appended to the assistant placeholder in order
    and the tail is dropped. *)
Theorem readLoop_records_any_chunking recs tail values fin pre m :
  Forall (wellFormed JSON_parse) recs →
  noLineFeed tail = true →
  Transport.text values = Transport.text (wire <$> recs.*1) +:+ tail →
  role m = assistant →
  readLoop JSON_parse values fin (pre ++ [m])
  = (pre ++ [{| role := assistant; content := content m +:+ deltas recs.*2 |}],
     match fin with EndOfData => None | ReadRejects e => Some e end).
Proof.
  intros Hrecs Htail Htext Hr.
  rewrite readLoop_text. f_equal.
  rewrite Htext, split_records_tail; [| |done].
  - rewrite removelast_last, processLines_records by done.
    by apply applyChunks_placeholder.
  - apply Forall_fmap. eapply Forall_impl; [apply Hrecs|].
    by intros [p f] [? _].
Qed.

End RecordFacts.

Lemma readLoop_records_any_chunking_witness :
  Chat.readLoop Sample.parseFrame
    ["data: " +:+ Sample.payload (StreamChunk.mk "Hel" false) +:+ String "010" "";
     String "010" "da";
     "ta: " +:+ Sample.payload (StreamChunk.mk "lo" false) +:+ Chat.separator
       +:+ "data: {";
     "half"]
    Chat.EndOfData Sample.turn
  = ([Chat.mkMessage Chat.user "hi"; Chat.mkMessage Chat.assistant "Hello"],
     None).
Proof.
  apply (readLoop_records_any_chunking Sample.parseFrame
           [(Sample.payload (StreamChunk.mk "Hel" false),
             StreamChunk.mk "Hel" false);
            (Sample.payload (StreamChunk.mk "lo" false),
             StreamChunk.mk "lo" false)]
           "data: {half" _ Chat.EndOfData
           [Chat.mkMessage Chat.user "hi"] (Chat.mkMessage Chat.assistant "")).
  - repeat constructor.
  - reflexivity.
  - reflexivity.
  - reflexivity.
Defined.

(** ** What the stream consumer leaves alone *)

Section FrameFacts.

Import Chat.

Variable JSON_parse : string → option StreamChunk.t.

Lemma foldl_preserves {A B C} (g : A → C) (f : A → B → A) l :
  (∀ acc x, g (f acc x) = g acc) → ∀ acc, g (foldl f acc l) = g acc.
Proof.
  intros H. induction l as [|x l IH]; intros acc; simpl; [done|].
  by rewrite IH, H.
Qed.

Lemma appendDelta_frame d msgs :
  Transport.frame (appendDelta d msgs) = Transport.frame msgs.
Proof.
  unfold appendDelta. destruct (last msgs) as [m|] eqn:Hlast; [|done].
  destruct (bool_decide (role m = assistant)); [|done].
  assert (msgs ≠ []) as Hne by (by destruct msgs).
  destruct (snoc_last_removelast msgs Hne) as (r & Hr & Hmsgs).
  unfold Transport.frame.
  rewrite removelast_last, last_snoc, Hlast. simpl.
  do 2 f_equal. apply (f_equal length) in Hmsgs.
  rewrite length_app in *. simpl in *. lia.
Qed.

Lemma processLine_frame msgs line :
  Transport.frame (processLine JSON_parse msgs line) = Transport.frame msgs.
Proof.
  unfold processLine. destruct (JS.startsWith _ _); [|done].
  destruct (JSON_parse _) as [chunk|]; [|done].
  unfold applyChunk. destruct (StreamChunk.done chunk); [done|].
  apply appendDelta_frame.
Qed.

Lemma frame_inv msgs msgs' :
  Transport.frame msgs' = Transport.frame msgs →
  removelast msgs' = removelast msgs
  ∧ length msgs' = length msgs
  ∧ role <$> last msgs' = role <$> last msgs.
Proof. unfold Transport.frame. by intros [= -> -> ->]. Qed.

(** X3: whatever the body holds and whatever the parser makes of it, the
    read loop changes at most the content of the last message: the
    messages before it, the length of the list and the role of the last
    message are as they were. *)
Theorem readLoop_touches_last_content_only values fin msgs :
  removelast (readLoop JSON_parse values fin msgs).1 = removelast msgs
  ∧ length (readLoop JSON_parse values fin msgs).1 = length msgs
  ∧ role <$> last (readLoop JSON_parse values fin msgs).1
    = role <$> last msgs.
Proof.
  apply frame_inv. rewrite readLoop_text. simpl.
  apply (foldl_preserves Transport.frame). apply processLine_frame.
Qed.

Lemma appendDelta_no_placeholder d msgs :
  role <$> last msgs ≠ Some assistant → appendDelta d msgs = msgs.
Proof.
  intros H. unfold appendDelta. destruct (last msgs) as [m|]; [|done].
  rewrite bool_decide_false; [done|]. intros Hr. apply H. simpl. by rewrite Hr.
Qed.

(** X4: when the last message is not an assistant message (or there is
    none), the read loop leaves the message list as it is, whatever
    arrives. *)
Theorem readLoop_without_placeholder values fin msgs :
  role <$> last msgs ≠ Some assistant →
  (readLoop JSON_parse values fin msgs).1 = msgs.
Proof.
  intros H. rewrite readLoop_text. simpl.
  generalize (removelast (JS.split separator (Transport.text values))).
  intros lines. induction lines as [|line lines IH]; simpl; [done|].
  replace (processLine JSON_parse msgs line) with msgs; [done|].
  unfold processLine. destruct (JS.startsWith _ _); [|done].
  destruct (JSON_parse _) as [chunk|]; [|done].
  unfold applyChunk. destruct (StreamChunk.done chunk); [done|].
  by rewrite appendDelta_no_placeholder.
Qed.

End FrameFacts.

Lemma readLoop_without_placeholder_witness :
  (Chat.readLoop Sample.parseFrame
     [Sample.record (StreamChunk.mk "Hel" false)] Chat.EndOfData
     [Chat.mkMessage Chat.user "hi"]).1
  = [Chat.mkMessage Chat.user "hi"].
Proof.
  apply (readLoop_without_placeholder Sample.parseFrame
           [Sample.record (StreamChunk.mk "Hel" false)] Chat.EndOfData
           [Chat.mkMessage Chat.user "hi"]).
  discriminate.
Defined.

(** ** What a submission leaves behind *)

Section SubmitFacts.

Import Chat.

Variable JSON_parse : string → option StreamChunk.t.
Variable baseURL : string.

Lemma shownTurn_snoc st :
  shownTurn st
  = (messages st ++ [{| role := user; content := input st |}])
    ++ [{| role := assistant; content := "" |}].
Proof. unfold shownTurn. by rewrite <- app_assoc. Qed.

Lemma frame_placeholder pre m msgs :
  role m = assistant →
  Transport.frame msgs = Transport.frame (pre ++ [m]) →
  ∃ m', msgs = pre ++ [m'] ∧ role m' = assistant.
Proof.
  intros Hr Hf. apply frame_inv in Hf as (Hrm & Hlen & Hlast).
  rewrite removelast_last in Hrm. rewrite last_snoc in Hlast. simpl in Hlast.
  assert (msgs ≠ []) as Hne.
  { intros ->. rewrite length_app in Hlen. simpl in Hlen. lia. }
  destruct (snoc_last_removelast msgs Hne) as (m' & Hm' & Hmsgs).
  exists m'. rewrite Hm' in Hlast. simpl in Hlast.
  split; [by rewrite Hmsgs, Hrm|congruence].
Qed.

Lemma catchBranch_shape e pre m :
  role m = assistant →
  ∃ reply rest,
    catchBranch e (pre ++ [m]) = pre ++ [reply] ++ rest
    ∧ role reply = assistant
    ∧ length rest ≤ 1
    ∧ Forall (λ r, role r = assistant) rest.
Proof.
  intros Hr. destruct e as [name message|]; simpl.
  - destruct (String.eqb name "AbortError"); simpl.
    + exists m, []. repeat split; [done|simpl; lia|constructor].
    + rewrite reportError_placeholder by done.
      destruct (bool_decide (content m = "")).
      * eexists _, []. repeat split; [simpl; lia|constructor].
      * eexists m, [_]. repeat split; [done|simpl; lia|by repeat constructor].
  - eexists m, [_]. rewrite <- app_assoc.
    repeat split; [done|simpl; lia|by repeat constructor].
Qed.

(** The message list a submission that passes the guard leaves: what the
    read loop made of the shown turn, or the [catch] branch applied to
    it. *)
Lemma handleSubmit_messages activeSessionInfo outcome st :
  JS.truthy (JS.trim (input st)) = true →
  isSending st = false →
  is_Some activeSessionInfo →
  let st' := (handleSubmit JSON_parse baseURL activeSessionInfo outcome st).1 in
  input st' = "" ∧ isSending st' = false
  ∧ ∃ msgs, Transport.frame msgs = Transport.frame (shownTurn st)
            ∧ (messages st' = msgs ∨ ∃ e, messages st' = catchBranch e msgs).
Proof.
  intros Hin Hs Ha. unfold handleSubmit. rewrite Hin, Hs.
  rewrite bool_decide_true by done. simpl.
  unfold try_catch_finally, mbind, C_bind. simpl.
  destruct (negb _); simpl.
  { split; [done|]. split; [done|]. exists (shownTurn st). split; [done|].
    right. by eexists (ErrorInstance "Error" _). }
  destruct outcome as [e|[json status| |values fin]]; simpl;
    try (split; [done|]; split; [done|]; exists (shownTurn st);
         split; [done|]; right;
         first [by exists e | by eexists (ErrorInstance "Error" _)]).
  destruct (readLoop JSON_parse values fin (shownTurn st)) as [msgs thrown] eqn:Hl.
  assert (Transport.frame msgs = Transport.frame (shownTurn st)) as Hf.
  { replace msgs with (readLoop JSON_parse values fin (shownTurn st)).1
      by (by rewrite Hl).
    rewrite readLoop_text. simpl.
    apply (foldl_preserves Transport.frame), processLine_frame. }
  destruct thrown as [e|]; simpl;
    (split; [done|]; split; [done|]; exists msgs; split; [done|]).
  - right. by exists e.
  - by left.
Qed.

(** X5: a submission that passes the guard (non-blank input, nothing in
    flight, an active session) always ends with the input cleared and
    sending off, and with the earlier messages untouched and followed by
    the user's message, one assistant message, and at most one further
    assistant message carrying an error; this holds for every outcome of
    the request. *)
Theorem handleSubmit_records_turn activeSessionInfo outcome st :
  JS.truthy (JS.trim (input st)) = true →
  isSending st = false →
  is_Some activeSessionInfo →
  let st' := (handleSubmit JSON_parse baseURL activeSessionInfo outcome st).1 in
  input st' = "" ∧ isSending st' = false
  ∧ ∃ reply rest,
      messages st'
      = messages st ++ [{| role := user; content := input st |}; reply] ++ rest
      ∧ role reply = assistant
      ∧ length rest ≤ 1
      ∧ Forall (λ r, role r = assistant) rest.
Proof.
  intros Hin Hs Ha st'.
  destruct (handleSubmit_messages activeSessionInfo outcome st Hin Hs Ha)
    as (Hi & Hsend & msgs & Hf & Hm).
  fold st' in Hi, Hsend, Hm. split; [done|]. split; [done|].
  rewrite shownTurn_snoc in Hf.
  apply frame_placeholder in Hf as (m' & -> & Hr'); [|done].
  destruct Hm as [->|[e ->]].
  - exists m', []. rewrite <- app_assoc. repeat split; [done|simpl; lia|constructor].
  - destruct (catchBranch_shape e
                (messages st ++ [{| role := user; content := input st |}])
                m' Hr') as (reply & rest & -> & ? & ? & ?).
    exists reply, rest. by rewrite <- !app_assoc.
Qed.

(** X6: cancelling a stream leaves exactly the state that the end of the
    stream at the same point would have left: what was applied is kept and
    no error message is added. *)
Theorem handleSubmit_abort_like_end activeSessionInfo values message st :
  handleSubmit JSON_parse baseURL activeSessionInfo
    (inr (Body values (ReadRejects (ErrorInstance "AbortError" message)))) st
  = handleSubmit JSON_parse baseURL activeSessionInfo
      (inr (Body values EndOfData)) st.
Proof.
  unfold handleSubmit. destruct (_ || _ || _); [done|].
  unfold try_catch_finally, mbind, C_bind. simpl.
  destruct (negb _); simpl; [done|].
  rewrite !readLoop_text. reflexivity.
Qed.

End SubmitFacts.

Lemma handleSubmit_records_turn_witness :
  ∃ reply rest,
    Chat.messages
      (Chat.handleSubmit Sample.parseFrame "" (Some Sample.first)
         (inl Sample.networkError) Sample.typed).1
    = Chat.messages Sample.typed
      ++ [Chat.mkMessage Chat.user (Chat.input Sample.typed); reply] ++ rest
    ∧ Chat.role reply = Chat.assistant
    ∧ length rest ≤ 1
    ∧ Forall (λ r, Chat.role r = Chat.assistant) rest.
Proof.
  apply (handleSubmit_records_turn Sample.parseFrame "" (Some Sample.first)
           (inl Sample.networkError) Sample.typed).
  - reflexivity.
  - reflexivity.
  - by eexists.
Defined.

(** ** A failed stream *)

Section FailureFacts.

Import Chat.

Variable JSON_parse : string → option StreamChunk.t.
Variable baseURL : string.
Variable activeSessionInfo : option Session.SessionInfo.




End FailureFacts.


(** ** Invariants of the session registry *)

Section RegistryFacts.

Import Session.

Variable JSON_stringify : SessionInfo → string.
Variable userToken : option string.

Abbreviation consistent := (Registry.consistent JSON_stringify).

Lemma findSession_Some id l s :
  findSession id l = Some s → s ∈ l ∧ session_id s = id.
Proof.
  unfold findSession. intros H. apply find_some in H as [Hin Heq].
  split; [by apply list_elem_of_In|by apply String.eqb_eq].
Qed.

Lemma last_elem_of {A} (l : list A) x : last l = Some x → x ∈ l.
Proof.
  intros H. assert (l ≠ []) as Hne by (by destruct l).
  destruct (snoc_last_removelast l Hne) as (r & Hr & Hl).
  rewrite Hl. apply elem_of_app. right. rewrite Hr in H.
  injection H as ->. by left.
Qed.

Lemma createNewSessionFn_consistent reply st :
  consistent st →
  consistent (run (createNewSessionFn JSON_stringify userToken reply) st).
Proof.
  intros H. unfold run.
  destruct (JS.truthy_opt userToken) eqn:Htok.
  - destruct reply as [data|].
    + rewrite createNewSessionFn_ok by done. unfold Registry.consistent. simpl.
      split; [apply elem_of_app; right; by left|].
      split; [by rewrite lookup_insert_ne, lookup_insert_eq|].
      by rewrite lookup_insert_eq.
    + by rewrite createNewSessionFn_fails.
  - by rewrite createNewSessionFn_no_token.
Qed.

Lemma afterFailedFetch_consistent st : consistent (afterFailedFetch st).
Proof.
  unfold Registry.consistent, afterFailedFetch. simpl.
  split; [by rewrite lookup_delete_ne, lookup_delete_eq|].
  by rewrite lookup_delete_eq.
Qed.

(** The state a successful fetch of a non-empty list leaves. *)
Lemma fetchSessions_listed d data createReply st :
  JS.truthy_opt userToken = true →
  fetchSessions JSON_stringify userToken (Some (d :: data)) createReply st
  = (tt,
     let chosen :=
       Registry.sessionToActivate (localStorage st !! "activeSessionId")
         (Registry.listed (d :: data)) in
     {| sessions := Registry.listed (d :: data);
        activeSessionInfo := chosen;
        isSessionLoading := false;
        localStorage :=
          match chosen with
          | Some s =>
              <["activeSessionInfo" := JSON_stringify s]>
                (<["activeSessionId" := session_id s]> (localStorage st))
          | None =>
              delete "activeSessionInfo"
                (delete "activeSessionId" (localStorage st))
          end;
        network := network st ++ [Get "/api/v1/auth/sessions"] |}).
Proof.
  intros Htok. unfold fetchSessions. rewrite Htok. simpl.
  unfold mbind, M_bind. simpl. rewrite switchActiveSession_run. reflexivity.
Qed.

Lemma sessionToActivate_elem_of stored fetched a :
  Registry.sessionToActivate stored fetched = Some a → a ∈ fetched.
Proof.
  unfold Registry.sessionToActivate. destruct (JS.truthy_opt stored).
  - destruct (findSession _ fetched) as [s|] eqn:Hf.
    + intros [= <-]. by apply findSession_Some in Hf as [? _].
    + apply last_elem_of.
  - apply last_elem_of.
Qed.

(** X7: from any state and for every answer of the server, once
    [fetchSessions] has settled the active pointer is either null, with
    nothing persisted, or a session of the list, persisted under both
    keys. *)
Theorem fetchSessions_pointer_consistent listReply createReply st :
  consistent (run (fetchSessions JSON_stringify userToken listReply createReply)
                st).
Proof.
  destruct (JS.truthy_opt userToken) eqn:Htok.
  - destruct listReply as [[|d data]|].
    + unfold run at 1. rewrite fetchSessions_empty by done.
      apply createNewSessionFn_consistent, afterFailedFetch_consistent.
    + unfold run. rewrite fetchSessions_listed by done.
      unfold Registry.consistent. simpl.
      destruct (Registry.sessionToActivate _ _) as [a|] eqn:Ha; simpl.
      * split; [by apply sessionToActivate_elem_of in Ha|].
        split; [by rewrite lookup_insert_ne, lookup_insert_eq|].
        by rewrite lookup_insert_eq.
      * split; [by rewrite lookup_delete_ne, lookup_delete_eq|].
        by rewrite lookup_delete_eq.
    + unfold run at 1. rewrite fetchSessions_rejected by done.
      apply createNewSessionFn_consistent, afterFailedFetch_consistent.
  - unfold run, fetchSessions. rewrite Htok. simpl.
    unfold Registry.consistent. simpl.
    split; [by rewrite lookup_delete_ne, lookup_delete_eq|].
    by rewrite lookup_delete_eq.
Qed.

(** The states a successful rename and a successful delete leave. *)
Lemma renameSession_ok id newName data st :
  JS.truthy_opt (access_token_of (findSession id (sessions st))) = true →
  let updated := with_name data (JS.or_else (JS.trim newName) placeholder) in
  let isActive := bool_decide (session_id <$> activeSessionInfo st = Some id) in
  run (renameSession JSON_stringify id newName (Some data)) st
  = {| sessions :=
         (λ s, if String.eqb (session_id s) id then updated else s)
           <$> sessions st;
       activeSessionInfo :=
         if isActive then Some updated else activeSessionInfo st;
       isSessionLoading := isSessionLoading st;
       localStorage :=
         if isActive
         then <["activeSessionInfo" := JSON_stringify updated]>
                (<["activeSessionId" := session_id updated]> (localStorage st))
         else localStorage st;
       network :=
         network st
         ++ [Patch ("/api/v1/auth/session/" +:+ id +:+ "/name")
               (JS.or_else (JS.trim newName) placeholder)
               ("Bearer " +:+ default ""
                  (access_token_of (findSession id (sessions st))))] |}.
Proof.
  intros Htok.
  unfold run, renameSession, mbind, M_bind, getSessions, getActiveSessionInfo.
  rewrite Htok. simpl.
  destruct (bool_decide _); [by rewrite switchActiveSession_run|done].
Qed.

Lemma deleteSession_ok id createReply st :
  JS.truthy_opt (access_token_of (findSession id (sessions st))) = true →
  let remaining := filter (λ s, session_id s ≠ id) (sessions st) in
  let call := Delete ("/api/v1/auth/session/" +:+ id)
                ("Bearer " +:+ default ""
                   (access_token_of (findSession id (sessions st)))) in
  run (deleteSession JSON_stringify userToken id (Some tt) createReply) st
  = if bool_decide (session_id <$> activeSessionInfo st = Some id) then
      match last remaining with
      | Some s =>
          {| sessions := remaining;
             activeSessionInfo := Some s;
             isSessionLoading := isSessionLoading st;
             localStorage :=
               <["activeSessionInfo" := JSON_stringify s]>
                 (<["activeSessionId" := session_id s]> (localStorage st));
             network := network st ++ [call] |}
      | None =>
          run (createNewSessionFn JSON_stringify userToken createReply)
            {| sessions := remaining;
               activeSessionInfo := None;
               isSessionLoading := isSessionLoading st;
               localStorage :=
                 delete "activeSessionInfo"
                   (delete "activeSessionId" (localStorage st));
               network := network st ++ [call] |}
      end
    else
      {| sessions := remaining;
         activeSessionInfo := activeSessionInfo st;
         isSessionLoading := isSessionLoading st;
         localStorage := localStorage st;
         network := network st ++ [call] |}.
Proof.
  intros Htok.
  unfold run, deleteSession, mbind, M_bind, getSessions, getActiveSessionInfo.
  rewrite Htok. simpl.
  destruct (bool_decide _); [|done].
  rewrite switchActiveSession_run. simpl.
  destruct (last _) as [s|]; simpl; [done|].
  by destruct (createNewSessionFn _ _ _ _).
Qed.

Lemma renameSession_rejected id newName st :
  let st' := run (renameSession JSON_stringify id newName None) st in
  sessions st' = sessions st ∧ activeSessionInfo st' = activeSessionInfo st
  ∧ localStorage st' = localStorage st
  ∧ isSessionLoading st' = isSessionLoading st.
Proof.
  unfold run, renameSession, mbind, M_bind, getSessions, getActiveSessionInfo.
  by destruct (negb _).
Qed.

Lemma deleteSession_rejected_any id createReply st :
  let st' := run (deleteSession JSON_stringify userToken id None createReply) st in
  sessions st' = sessions st ∧ activeSessionInfo st' = activeSessionInfo st
  ∧ localStorage st' = localStorage st
  ∧ isSessionLoading st' = isSessionLoading st.
Proof.
  unfold run, deleteSession, mbind, M_bind, getSessions, getActiveSessionInfo.
  by destruct (negb _).
Qed.

Lemma consistent_ext st st' :
  sessions st' = sessions st → activeSessionInfo st' = activeSessionInfo st →
  localStorage st' = localStorage st →
  consistent st → consistent st'.
Proof. unfold Registry.consistent. by intros -> -> ->. Qed.

Lemma guard_cases id l :
  JS.truthy_opt (access_token_of (findSession id l)) = true →
  ∃ s, findSession id l = Some s.
Proof. destruct (findSession id l); [eauto|discriminate]. Qed.

(** X8: creating, renaming and deleting a session keep the active
    pointer consistent: if before the operation it was null with nothing
    persisted, or a listed session persisted under both keys, the same is
    true once the operation has settled, for every answer of the server. *)
Theorem mutations_keep_pointer_consistent st :
  consistent st →
  (∀ reply,
     consistent (run (createNewSessionFn JSON_stringify userToken reply) st))
  ∧ (∀ id newName reply,
       consistent (run (renameSession JSON_stringify id newName reply) st))
  ∧ (∀ id deleteReply createReply,
       consistent (run (deleteSession JSON_stringify userToken id deleteReply
                          createReply) st)).
Proof.
  intros Hc. split; [|split].
  - intros reply. by apply createNewSessionFn_consistent.
  - intros id newName reply.
    destruct (JS.truthy_opt (access_token_of (findSession id (sessions st))))
      eqn:Htok.
    + destruct reply as [data|].
      * rewrite renameSession_ok by done.
        destruct (guard_cases _ _ Htok) as [s0 Hs0].
        apply findSession_Some in Hs0 as [Hin0 Hid0].
        unfold Registry.consistent in *. simpl.
        destruct (activeSessionInfo st) as [a|] eqn:Ha; simpl.
        -- case_bool_decide as Hact; simpl.
           ++ split.
              { apply list_elem_of_fmap. exists s0. split; [|done].
                by rewrite Hid0, String.eqb_refl. }
              split; [by rewrite lookup_insert_ne, lookup_insert_eq|].
              by rewrite lookup_insert_eq.
           ++ destruct Hc as (Hin & ? & ?). split; [|done].
              apply list_elem_of_fmap. exists a. split; [|done].
              destruct (String.eqb_spec (session_id a) id); [|done].
              exfalso. apply Hact. by f_equal.
        -- first [done | by case_bool_decide].
      * destruct (renameSession_rejected id newName st) as (? & ? & ? & _).
        by eapply consistent_ext.
    + unfold run. by rewrite renameSession_guard.
  - intros id deleteReply createReply.
    destruct (JS.truthy_opt (access_token_of (findSession id (sessions st))))
      eqn:Htok.
    + destruct deleteReply as [[]|].
      * rewrite deleteSession_ok by done.
        case_bool_decide as Hact.
        -- destruct (last _) as [s|] eqn:Hlast.
           ++ unfold Registry.consistent. simpl.
              split; [by apply last_elem_of|].
              split; [by rewrite lookup_insert_ne, lookup_insert_eq|].
              by rewrite lookup_insert_eq.
           ++ apply createNewSessionFn_consistent.
              unfold Registry.consistent. simpl.
              split; [by rewrite lookup_delete_ne, lookup_delete_eq|].
              by rewrite lookup_delete_eq.
        -- unfold Registry.consistent in *. simpl.
           destruct (activeSessionInfo st) as [a|]; [|done].
           destruct Hc as (Hin & ? & ?). split; [|done].
           apply list_elem_of_filter. split; [|done].
           intros Hid. apply Hact. simpl. by rewrite Hid.
      * destruct (deleteSession_rejected_any id createReply st) as (? & ? & ? & _).
        by eapply consistent_ext.
    + unfold run. by rewrite deleteSession_guard.
Qed.

Lemma or_else_placeholder_truthy n :
  JS.truthy (JS.or_else n placeholder) = true.
Proof. by destruct n. Qed.

Lemma listed_named data :
  Forall (λ s, JS.truthy (name s) = true) (Registry.listed data).
Proof.
  unfold Registry.listed. apply Forall_fmap, Forall_forall. intros s _. simpl.
  apply or_else_placeholder_truthy.
Qed.

Lemma createNewSessionFn_named reply st :
  Registry.named st →
  Registry.named (run (createNewSessionFn JSON_stringify userToken reply) st).
Proof.
  intros H. unfold run, Registry.named in *.
  destruct (JS.truthy_opt userToken) eqn:Htok.
  - destruct reply as [data|].
    + rewrite createNewSessionFn_ok by done. simpl.
      apply Forall_app. split; [done|]. constructor; [|constructor].
      simpl. apply or_else_placeholder_truthy.
    + by rewrite createNewSessionFn_fails.
  - by rewrite createNewSessionFn_no_token.
Qed.

(** X9: no session of the registry ever has an empty display name:
    [fetchSessions] leaves only named sessions whatever state it starts
    from, and creating, renaming and deleting keep it so, for every answer
    of the server. *)
Theorem registry_names_never_empty st :
  (∀ listReply createReply,
     Registry.named
       (run (fetchSessions JSON_stringify userToken listReply createReply) st))
  ∧ (Registry.named st →
     (∀ reply,
        Registry.named
          (run (createNewSessionFn JSON_stringify userToken reply) st))
     ∧ (∀ id newName reply,
          Registry.named
            (run (renameSession JSON_stringify id newName reply) st))
     ∧ (∀ id deleteReply createReply,
          Registry.named
            (run (deleteSession JSON_stringify userToken id deleteReply
                    createReply) st))).
Proof.
  split.
  - intros listReply createReply.
    destruct (JS.truthy_opt userToken) eqn:Htok.
    + destruct listReply as [[|d data]|].
      * unfold run at 1. rewrite fetchSessions_empty by done.
        apply createNewSessionFn_named. constructor.
      * unfold run. rewrite fetchSessions_listed by done.
        apply listed_named.
      * unfold run at 1. rewrite fetchSessions_rejected by done.
        apply createNewSessionFn_named. constructor.
    + unfold run, fetchSessions. rewrite Htok. constructor.
  - intros Hn. split; [|split].
    + intros reply. by apply createNewSessionFn_named.
    + intros id newName reply.
      destruct (JS.truthy_opt (access_token_of (findSession id (sessions st))))
        eqn:Htok.
      * destruct reply as [data|].
        -- rewrite renameSession_ok by done. unfold Registry.named in *. simpl.
           apply Forall_fmap. eapply Forall_impl; [apply Hn|].
           intros s Hs. simpl. destruct (String.eqb _ _); [|done].
           apply or_else_placeholder_truthy.
        -- destruct (renameSession_rejected id newName st) as (Hs & _).
           unfold Registry.named. by rewrite Hs.
      * unfold run. by rewrite renameSession_guard.
    + intros id deleteReply createReply.
      destruct (JS.truthy_opt (access_token_of (findSession id (sessions st))))
        eqn:Htok.
      * destruct deleteReply as [[]|].
        -- rewrite deleteSession_ok by done.
           assert (Forall (λ s, JS.truthy (name s) = true)
                     (filter (λ s, session_id s ≠ id) (sessions st))) as Hf.
           { apply Forall_forall. intros s Hs.
             apply list_elem_of_filter in Hs as [_ Hs].
             unfold Registry.named in Hn. rewrite Forall_forall in Hn. auto. }
           case_bool_decide; [|done].
           destruct (last _); [done|].
           by apply createNewSessionFn_named.
        -- destruct (deleteSession_rejected_any id createReply st) as (Hs & _).
           unfold Registry.named. by rewrite Hs.
      * unfold run. by rewrite deleteSession_guard.
Qed.

Lemma findSession_listed i data :
  (∃ s, s ∈ data ∧ session_id s = i) →
  ∃ a, findSession i (Registry.listed data) = Some a.
Proof.
  intros (s & Hin & Hid). induction data as [|x data IH].
  - by apply elem_of_nil in Hin.
  - unfold findSession in *. simpl.
    destruct (String.eqb_spec (session_id x) i) as [|Hne]; [eauto|].
    apply IH. apply elem_of_cons in Hin as [->|Hin]; [done|exact Hin].
Qed.

(** X10: after a successful fetch of a non-empty list, a remembered
    session id that some fetched session carries makes a session with that
    id the active one; a remembered id that no fetched session carries, or
    no remembered id, makes the last session of the list the active one. *)
Theorem fetchSessions_restores_or_takes_last d data createReply st :
  JS.truthy_opt userToken = true →
  let st' := run (fetchSessions JSON_stringify userToken (Some (d :: data))
                    createReply) st in
  (∀ i, localStorage st !! "activeSessionId" = Some i → JS.truthy i = true →
        (∃ s, s ∈ d :: data ∧ session_id s = i) →
        ∃ a, activeSessionInfo st' = Some a ∧ session_id a = i
             ∧ a ∈ sessions st')
  ∧ ((∀ i, localStorage st !! "activeSessionId" = Some i →
           ∀ s, s ∈ d :: data → session_id s ≠ i) →
     activeSessionInfo st' = last (sessions st')).
Proof.
  intros Htok st'. subst st'. unfold run. rewrite fetchSessions_listed by done.
  cbn [snd sessions activeSessionInfo]. split.
  - intros i Hi Hti Hex.
    destruct (findSession_listed i (d :: data) Hex) as [a Ha].
    exists a. unfold Registry.sessionToActivate. rewrite Hi.
    change (default "" (Some i)) with i. cbn [JS.truthy_opt].
    rewrite Hti, Ha. apply findSession_Some in Ha as [? ?]. done.
  - intros Hnone. unfold Registry.sessionToActivate.
    destruct (localStorage st !! "activeSessionId") as [i|] eqn:Hi;
      cbn [JS.truthy_opt]; [|done].
    change (default "" (Some i)) with i.
    destruct (JS.truthy i); [|done].
    rewrite findSession_None; [done|].
    intros s Hs. unfold Registry.listed in Hs.
    apply list_elem_of_fmap in Hs as (s0 & -> & Hs0). simpl.
    by apply (Hnone i).
Qed.

(** X11: a rejected request changes nothing in the registry: after a
    creation, a rename or a delete whose request the server rejects, the
    session list, the active pointer and the persisted state are what they
    were. *)
Theorem rejected_mutation_changes_nothing st :
  (let st' := run (createNewSessionFn JSON_stringify userToken None) st in
   sessions st' = sessions st ∧ activeSessionInfo st' = activeSessionInfo st
   ∧ localStorage st' = localStorage st)
  ∧ (∀ id newName,
       let st' := run (renameSession JSON_stringify id newName None) st in
       sessions st' = sessions st ∧ activeSessionInfo st' = activeSessionInfo st
       ∧ localStorage st' = localStorage st)
  ∧ (∀ id createReply,
       let st' := run (deleteSession JSON_stringify userToken id None
                         createReply) st in
       sessions st' = sessions st ∧ activeSessionInfo st' = activeSessionInfo st
       ∧ localStorage st' = localStorage st).
Proof.
  split; [|split].
  - unfold run. destruct (JS.truthy_opt userToken) eqn:Htok.
    + by rewrite createNewSessionFn_fails.
    + by rewrite createNewSessionFn_no_token.
  - intros id newName.
    by destruct (renameSession_rejected id newName st) as (? & ? & ? & _).
  - intros id createReply.
    by destruct (deleteSession_rejected_any id createReply st) as (? & ? & ? & _).
Qed.

End RegistryFacts.

(** ** More on the request router *)

Section RouterMore.

Import Router.

Variable parse_access_token : string → option (option string).

Lemma interceptor_keeps_set_header ls config :
  JS.truthy_opt (Authorization config) = true →
  interceptor parse_access_token ls config = config.
Proof. intros H. unfold interceptor. by rewrite H, andb_false_r. Qed.

(** X12: the interceptor is idempotent: passing a request through it a
    second time changes nothing. *)
Theorem interceptor_idempotent ls config :
  interceptor parse_access_token ls
    (interceptor parse_access_token ls config)
  = interceptor parse_access_token ls config.
Proof.
  destruct (interceptor_cases parse_access_token ls config)
    as [Heq|(t & _ & Ht & _ & ->)]; [by rewrite !Heq|].
  apply interceptor_keeps_set_header.
  unfold Authorization. simpl. rewrite lookup_insert_eq.
  reflexivity.
Qed.

Lemma url_or_else config :
  JS.or_else (default "" (url config)) "" = default "" (url config).
Proof. by destruct (default "" (url config)). Qed.

Lemma session_url_not_chatbot u :
  JS.startsWith "/api/v1/auth/session/" u = true →
  JS.startsWith "/api/v1/chatbot" u = false.
Proof.
  intros H.
  repeat (apply startsWith_cons_inv in H as (? & -> & H)).
  reflexivity.
Qed.

(** X13: a request whose URL is outside the routing table, and a PATCH
    request to any URL that is not a chatbot URL, leave the interceptor
    exactly as they entered it: no credential is attached. *)
Theorem interceptor_unrouted ls config :
  let u := default "" (url config) in
  JS.startsWith "/api/v1/chatbot" u = false →
  (String.eqb u "/api/v1/auth/me" = false
   ∧ JS.startsWith "/api/v1/auth/sessions" u = false
   ∧ String.eqb u "/api/v1/auth/session" = false
   ∧ JS.startsWith "/api/v1/auth/session/" u = false)
  ∨ JS.toLowerCase <$> method config = Some "patch" →
  interceptor parse_access_token ls config = config.
Proof.
  intros u Hchat Hcase.
  assert (selectToken parse_access_token ls config = None) as Hsel.
  { unfold selectToken. rewrite url_or_else. fold u. rewrite Hchat.
    destruct Hcase as [(-> & -> & -> & ->)|Hpatch]; [done|].
    destruct (_ || _ || _ || _); [|done].
    by rewrite bool_decide_true. }
  unfold interceptor. by rewrite Hsel.
Qed.

(** X14: the profile fetch, the session creation and the calls on one
    session's URL, made with a method other than PATCH and with no
    credential of the caller's, leave the interceptor with the stored
    account token as their credential. *)
Theorem interceptor_account_routes ls config t :
  let u := default "" (url config) in
  u = "/api/v1/auth/me" ∨ u = "/api/v1/auth/session"
  ∨ JS.startsWith "/api/v1/auth/session/" u = true →
  JS.toLowerCase <$> method config ≠ Some "patch" →
  JS.truthy_opt (Authorization config) = false →
  ls !! "authToken" = Some t → JS.truthy t = true →
  Authorization (interceptor parse_access_token ls config)
  = Some ("Bearer " +:+ t).
Proof.
  intros u Hu Hm Hnone Ht Htt.
  assert (selectToken parse_access_token ls config = Some t) as Hsel.
  { unfold selectToken. rewrite url_or_else. fold u.
    rewrite bool_decide_false by done. simpl.
    destruct Hu as [->|[->|Hu]]; [by rewrite Ht..|].
    rewrite (session_url_not_chatbot _ Hu), Hu.
    by rewrite !orb_true_r. }
  unfold interceptor. rewrite Hsel, Hnone. simpl. rewrite Htt. simpl.
  unfold Authorization. simpl. by rewrite lookup_insert_eq.
Qed.

End RouterMore.

(** ** From the registry to the router *)

Section EndToEnd.

Import Session.

Variable JSON_stringify : SessionInfo → string.
Variable parse_access_token : string → option (option string).
Variable userToken : option string.

(** X15: the router sees the registry's active session. When the active
    pointer is consistent and parsing what [JSON.stringify] wrote for the
    active session gives its token back, a chatbot call made with no
    credential of its own leaves the interceptor with the active session's
    token; with no active session it leaves it without a credential, even
    when an account token is stored. *)
Theorem chatbot_call_carries_active_token st config :
  Registry.consistent JSON_stringify st →
  JS.startsWith "/api/v1/chatbot" (default "" (Router.url config)) = true →
  JS.truthy_opt (Router.Authorization config) = false →
  (∀ a t, activeSessionInfo st = Some a →
          JS.truthy (JSON_stringify a) = true →
          parse_access_token (JSON_stringify a) = Some (access_token_of (Some a)) →
          access_token_of (Some a) = Some t → JS.truthy t = true →
          Router.Authorization
            (Router.interceptor parse_access_token (localStorage st) config)
          = Some ("Bearer " +:+ t))
  ∧ (activeSessionInfo st = None →
     Router.interceptor parse_access_token (localStorage st) config = config).
Proof.
  intros Hc Hurl Hnone. unfold Registry.consistent in Hc. split.
  - intros a t Ha Hne Hparse Ht Htt. rewrite Ha in Hc.
    destruct Hc as (_ & _ & Hinfo).
    assert (Router.selectToken parse_access_token (localStorage st) config
            = Some t) as Hsel.
    { rewrite selectToken_chatbot by done. unfold Router.activeSessionToken.
      rewrite Hinfo. simpl. by rewrite Hne, Hparse. }
    unfold Router.interceptor. rewrite Hsel, Hnone. simpl. rewrite Htt. simpl.
    unfold Router.Authorization. simpl. by rewrite lookup_insert_eq.
  - intros Ha. rewrite Ha in Hc. destruct Hc as (_ & Hinfo).
    assert (Router.selectToken parse_access_token (localStorage st) config
            = None) as Hsel.
    { rewrite selectToken_chatbot by done. unfold Router.activeSessionToken.
      by rewrite Hinfo. }
    unfold Router.interceptor. by rewrite Hsel.
Qed.

(** X16: the requests of [renameSession] and [deleteSession] reach the
    server with the session's own token: the request each issues carries
    it as set by the caller, and the interceptor returns that request
    unchanged whatever the browser store holds, although the routing
    table would select the account token for the delete URL. *)
Theorem session_calls_keep_session_token id st ls :
  JS.truthy_opt (access_token_of (findSession id (sessions st))) = true →
  let bearer := "Bearer " +:+ default ""
                  (access_token_of (findSession id (sessions st))) in
  (∀ newName reply,
     ∃ c, network (run (renameSession JSON_stringify id newName reply) st)
          = network st ++ [c]
          ∧ Router.Authorization (Transport.toConfig c) = Some bearer
          ∧ Router.interceptor parse_access_token ls (Transport.toConfig c)
            = Transport.toConfig c)
  ∧ (∀ deleteReply createReply,
       ∃ c rest,
         network (run (deleteSession JSON_stringify userToken id deleteReply
                         createReply) st)
         = network st ++ c :: rest
         ∧ Router.Authorization (Transport.toConfig c) = Some bearer
         ∧ Router.interceptor parse_access_token ls (Transport.toConfig c)
           = Transport.toConfig c).
Proof.
  intros Htok bearer.
  assert (JS.truthy bearer = true) as Hb by done.
  split.
  - intros newName reply.
    exists (Patch ("/api/v1/auth/session/" +:+ id +:+ "/name")
              (JS.or_else (JS.trim newName) placeholder) bearer).
    split; [|split].
    + destruct reply as [data|].
      * by rewrite renameSession_ok.
      * unfold run, renameSession, mbind, M_bind, getSessions,
          getActiveSessionInfo. by rewrite Htok.
    + done.
    + by apply interceptor_keeps_set_header.
  - intros deleteReply createReply.
    exists (Delete ("/api/v1/auth/session/" +:+ id) bearer).
    destruct deleteReply as [[]|].
    + rewrite deleteSession_ok by done.
      case_bool_decide.
      * destruct (last _).
        -- exists []. split; [done|]. split; [done|].
           by apply interceptor_keeps_set_header.
        -- unfold run.
           destruct (JS.truthy_opt userToken) eqn:Hu.
           ++ exists [Post "/api/v1/auth/session"].
              split; [|split; [done|by apply interceptor_keeps_set_header]].
              destruct createReply.
              ** rewrite createNewSessionFn_ok by done. simpl.
                 by rewrite <- app_assoc.
              ** rewrite createNewSessionFn_fails by done. simpl.
                 by rewrite <- app_assoc.
           ++ exists []. rewrite createNewSessionFn_no_token by done.
              split; [done|]. split; [done|].
              by apply interceptor_keeps_set_header.
      * exists []. split; [done|]. split; [done|].
        by apply interceptor_keeps_set_header.
    + exists []. split; [|split; [done|by apply interceptor_keeps_set_header]].
      unfold run, deleteSession, mbind, M_bind, getSessions,
        getActiveSessionInfo. by rewrite Htok.
Qed.

End EndToEnd.

(** ** More on the identity session *)

Section AuthMore.

Import Auth.

Variable Date_parse : string → option Z.
Variable now : Z.

(** X17: [logout] leaves no token, no identity and none of the four
    persisted keys, touches no other key, routes to the login page, and a
    [checkAuth] run after it finds nothing to adopt. *)
Theorem logout_clears_everything st :
  let st' := logout st in
  userToken st' = None ∧ user st' = None ∧ isAuthenticated st' = false
  ∧ route st' = Some "/login"
  ∧ (∀ k, k ∈ ["authToken"; "authTokenExpiry"; "activeSessionId";
               "activeSessionInfo"] → localStorage st' !! k = None)
  ∧ (∀ k, k ∉ ["authToken"; "authTokenExpiry"; "activeSessionId";
               "activeSessionInfo"] →
          localStorage st' !! k = localStorage st !! k)
  ∧ ∀ reply, isAuthenticated (checkAuth Date_parse now reply st') = false.
Proof.
  simpl. repeat split.
  - intros k Hk. unfold logout. simpl.
    repeat (apply elem_of_cons in Hk as [->|Hk];
            [by repeat (rewrite lookup_delete_eq
                        || rewrite lookup_delete_ne by done)|]).
    by apply elem_of_nil in Hk.
  - intros k Hk. unfold logout. simpl.
    rewrite !lookup_delete_ne; [done|..];
      intros <-; apply Hk; repeat constructor.
  - intros reply.
    destruct (checkAuth_rejects_stored Date_parse now reply (logout st)) as [Ht _].
    + left. unfold logout. simpl.
      by repeat (rewrite lookup_delete_eq || rewrite lookup_delete_ne by done).
    + unfold isAuthenticated. by rewrite Ht.
Qed.

(** The state [checkAuth] leaves when it adopts the stored token. *)
Lemma checkAuth_adopts reply st tok e :
  localStorage st !! "authToken" = Some tok →
  localStorage st !! "authTokenExpiry" = Some e →
  JS.truthy tok = true → JS.truthy e = true →
  inFuture Date_parse now e = true →
  checkAuth Date_parse now reply st
  = {| userToken := Some tok;
       user := (λ d, {| id := id d; email := email d |}) <$> reply;
       isLoading := false;
       localStorage := localStorage st;
       route := route st |}.
Proof.
  intros Ht He Htt Het Hf. unfold checkAuth. simpl.
  rewrite Ht, He. simpl. rewrite Htt, Het, Hf. simpl.
  by destruct reply.
Qed.

(** X18: what [login] persists, [checkAuth] restores. After a [login]
    with a non-empty token and an expiry that lies in the future, a later
    [checkAuth] holds that token again, and the session is authenticated
    exactly when the profile fetch of that [checkAuth] succeeds, whether
    or not the fetch made by [login] had succeeded. *)
Theorem login_then_checkAuth newToken expiresAt reply0 reply st :
  JS.truthy newToken = true → JS.truthy expiresAt = true →
  inFuture Date_parse now expiresAt = true →
  let st' := checkAuth Date_parse now reply
               (login newToken expiresAt reply0 st) in
  userToken st' = Some newToken
  ∧ (isAuthenticated st' = true ↔ is_Some reply)
  ∧ localStorage st' !! "authToken" = Some newToken
  ∧ localStorage st' !! "authTokenExpiry" = Some expiresAt.
Proof.
  intros Ht He Hf st'. subst st'.
  assert (localStorage (login newToken expiresAt reply0 st) !! "authToken"
          = Some newToken) as Hlt.
  { unfold login. destruct reply0; simpl;
      by rewrite lookup_insert_ne, lookup_insert_eq. }
  assert (localStorage (login newToken expiresAt reply0 st) !! "authTokenExpiry"
          = Some expiresAt) as Hle.
  { unfold login. destruct reply0; simpl; by rewrite lookup_insert_eq. }
  rewrite (checkAuth_adopts reply _ newToken expiresAt) by done.
  simpl. split; [done|]. split; [|done].
  unfold isAuthenticated. simpl. rewrite Ht. simpl.
  rewrite bool_decide_eq_true. by destruct reply; rewrite ?is_Some_alt.
Qed.

(** X19: [checkAuth] ends authenticated exactly when the browser store
    holds a non-empty token and a non-empty expiry that lies strictly in
    the future and the profile fetch succeeds; the token and identity held
    in memory before it play no part. *)
Theorem checkAuth_authenticated_iff reply st :
  Auth.isAuthenticated (checkAuth Date_parse now reply st) = true
  ↔ ∃ tok e,
      localStorage st !! "authToken" = Some tok
      ∧ localStorage st !! "authTokenExpiry" = Some e
      ∧ JS.truthy tok = true ∧ JS.truthy e = true
      ∧ inFuture Date_parse now e = true
      ∧ is_Some reply.
Proof.
  split.
  - intros Hauth.
    assert (¬ storedTokenExpiredOrAbsent Date_parse now st) as Hn.
    { intros H.
      destruct (checkAuth_rejects_stored Date_parse now reply st H) as [Hnone _].
      unfold isAuthenticated in Hauth. by rewrite Hnone in Hauth. }
    unfold storedTokenExpiredOrAbsent in Hn.
    destruct (localStorage st !! "authToken") as [tok|] eqn:Ht;
      [|exfalso; apply Hn; by left].
    destruct (JS.truthy tok) eqn:Htt; [|exfalso; apply Hn; by left].
    destruct (localStorage st !! "authTokenExpiry") as [e|] eqn:He;
      [|exfalso; apply Hn; by right].
    destruct (inFuture Date_parse now e) eqn:Hf; [|exfalso; apply Hn; by right].
    destruct (JS.truthy e) eqn:Het.
    2:{ exfalso. revert Hauth. unfold checkAuth, isAuthenticated. simpl.
        rewrite Ht, He. simpl. by rewrite Htt, Het. }
    exists tok, e. repeat split; try done.
    rewrite (checkAuth_adopts reply st tok e) in Hauth by done.
    unfold isAuthenticated in Hauth. simpl in Hauth.
    apply andb_prop in Hauth as [_ Hu]. apply bool_decide_eq_true in Hu.
    by destruct reply; [eexists|destruct Hu].
  - intros (tok & e & Ht & He & Htt & Het & Hf & [d ->]).
    rewrite (checkAuth_adopts (Some d) st tok e) by done.
    unfold isAuthenticated. simpl. by rewrite Htt.
Qed.

(** X20: [checkAuth] removes a stored token and expiry exactly when both
    are present and the expiry is not strictly in the future; in every
    other case, and for every other key, it leaves the browser store as it
    found it. *)
Theorem checkAuth_purges_stale_pair reply st :
  let stale :=
    JS.truthy_opt (localStorage st !! "authToken")
    && JS.truthy_opt (localStorage st !! "authTokenExpiry")
    && negb (inFuture Date_parse now
               (default "" (localStorage st !! "authTokenExpiry"))) in
  localStorage (checkAuth Date_parse now reply st)
  = if stale
    then delete "authTokenExpiry" (delete "authToken" (localStorage st))
    else localStorage st.
Proof.
  unfold checkAuth. simpl.
  destruct (JS.truthy_opt (localStorage st !! "authToken")); simpl; [|done].
  destruct (JS.truthy_opt (localStorage st !! "authTokenExpiry")); simpl; [|done].
  destruct (inFuture _ _ _); simpl; [|done].
  by destruct reply.
Qed.

End AuthMore.

(** ** Trimming twice *)

Section TrimFacts.

Lemma rev_cons c (r : string) :
  String.rev (String c r) = String.rev r +:+ String c "".
Proof. unfold String.rev. simpl. by rewrite <- rev_app_app. Qed.

Lemma rev_snoc c (r : string) :
  String.rev (r +:+ String c "") = String c (String.rev r).
Proof.
  rewrite <- (rev_rev r) at 1. rewrite <- rev_cons. apply rev_rev.
Qed.

Lemma allWhiteSpace_app a b :
  JS.allWhiteSpace (a +:+ b) = JS.allWhiteSpace a && JS.allWhiteSpace b.
Proof.
  induction a as [|c a IH]; [done|].
  change (String c a +:+ b) with (String c (a +:+ b)). simpl.
  by rewrite IH, andb_assoc.
Qed.

Lemma allWhiteSpace_rev s : JS.allWhiteSpace (String.rev s) = JS.allWhiteSpace s.
Proof.
  induction s as [|c s IH]; [done|].
  rewrite rev_cons, allWhiteSpace_app, IH. simpl.
  by rewrite andb_true_r, andb_comm.
Qed.

Lemma trimStart_snoc x c :
  JS.trimStart (x +:+ String c "")
  = if JS.allWhiteSpace x
    then (if JS.isWhiteSpace c then "" else String c "")
    else JS.trimStart x +:+ String c "".
Proof.
  induction x as [|d x IH]; [by simpl; destruct (JS.isWhiteSpace c)|].
  change (String d x +:+ String c "") with (String d (x +:+ String c "")).
  simpl. by destruct (JS.isWhiteSpace d).
Qed.

Lemma trimEnd_cons c r :
  JS.trimEnd (String c r)
  = if JS.isWhiteSpace c && JS.allWhiteSpace r then ""
    else String c (JS.trimEnd r).
Proof.
  unfold JS.trimEnd. rewrite rev_cons, trimStart_snoc, allWhiteSpace_rev.
  destruct (JS.allWhiteSpace r) eqn:Hr.
  - rewrite (trimStart_allWhiteSpace (String.rev r))
      by (by rewrite allWhiteSpace_rev).
    by destruct (JS.isWhiteSpace c).
  - by rewrite rev_snoc, andb_false_r.
Qed.

Lemma trimStart_idem s : JS.trimStart (JS.trimStart s) = JS.trimStart s.
Proof.
  induction s as [|c s IH]; [done|]. simpl.
  destruct (JS.isWhiteSpace c) eqn:Hc; [done|]. simpl. by rewrite Hc.
Qed.

Lemma trimEnd_idem s : JS.trimEnd (JS.trimEnd s) = JS.trimEnd s.
Proof. unfold JS.trimEnd. by rewrite rev_rev, trimStart_idem. Qed.

Lemma trimStart_trimEnd s :
  JS.trimStart (JS.trimEnd s) = JS.trimEnd (JS.trimStart s).
Proof.
  induction s as [|c s IH]; [done|].
  rewrite trimEnd_cons. simpl JS.trimStart at 2.
  destruct (JS.isWhiteSpace c) eqn:Hc; simpl.
  - destruct (JS.allWhiteSpace s) eqn:Hs.
    + by rewrite (trimStart_allWhiteSpace s).
    + simpl. by rewrite Hc.
  - rewrite Hc. by rewrite trimEnd_cons, Hc.
Qed.

Lemma trim_idem s : JS.trim (JS.trim s) = JS.trim s.
Proof.
  unfold JS.trim.
  by rewrite (trimStart_trimEnd (JS.trimStart s)), trimStart_idem, trimEnd_idem.
Qed.

End TrimFacts.

(** ** The sidebar's handlers *)

Section SidebarFacts.

Import Sidebar.

Variable JSON_stringify : Session.SessionInfo → string.

(** X21: the rename dialog never sends a blank name, and stores the
    typed name trimmed. With no session chosen or a name that trims to
    nothing, [handleRenameSubmit] changes nothing and issues no request;
    otherwise, when the request succeeds, every entry of the renamed id
    carries exactly the trimmed name and the dialog is closed and
    cleared. *)
Theorem handleRenameSubmit_stores_trimmed_name patchReply ui reg :
  (sessionToRename ui = None ∨ JS.truthy (JS.trim (newName ui)) = false →
   handleRenameSubmit JSON_stringify patchReply (ui, reg) = (ui, reg))
  ∧ (∀ session data,
       sessionToRename ui = Some session →
       JS.truthy (JS.trim (newName ui)) = true →
       JS.truthy_opt
         (Session.access_token_of
            (Session.findSession (Session.session_id session)
               (Session.sessions reg))) = true →
       patchReply = Some data →
       let '(ui', reg') := handleRenameSubmit JSON_stringify patchReply (ui, reg) in
       isRenameDialogOpen ui' = false ∧ sessionToRename ui' = None
       ∧ newName ui' = ""
       ∧ Session.sessions reg'
         = ((λ s, if String.eqb (Session.session_id s)
                       (Session.session_id session)
                  then Session.with_name data (JS.trim (newName ui)) else s)
              <$> Session.sessions reg)).
Proof.
  split.
  - unfold handleRenameSubmit. intros [->| ->]; [done|].
    by destruct (sessionToRename ui).
  - intros session data Hs Hn Htok ->. unfold handleRenameSubmit.
    rewrite Hs, Hn. repeat split.
    rewrite renameSession_ok by done. simpl.
    rewrite trim_idem. unfold JS.or_else. by rewrite Hn.
Qed.

End SidebarFacts.

(** ** The message history *)

Section HistoryFacts.

Import ChatContext.

Variable activeSessionInfo : option Session.SessionInfo.

(** X22: how the message history reacts to failures. Without a session
    token [fetchMessages] empties the list and [clearChatHistory] does
    nothing, and neither issues a request. With one, each issues exactly
    one request; a fetch that fails with status 404 empties the list, any
    other failed fetch and every failed clear leave the messages as they
    were, and the loading flag is off after the fetch. *)
Theorem history_failure_behaviour st :
  (JS.truthy_opt (Session.access_token_of activeSessionInfo) = false →
   (∀ reply, fetchMessages activeSessionInfo reply st = setMessages [] st)
   ∧ (∀ reply, clearChatHistory activeSessionInfo reply st = st))
  ∧ (JS.truthy_opt (Session.access_token_of activeSessionInfo) = true →
     (∀ reply,
        network (fetchMessages activeSessionInfo reply st)
        = network st ++ [Get "/api/v1/chatbot/messages"]
        ∧ isLoadingMessages (fetchMessages activeSessionInfo reply st) = false)
     ∧ messages (fetchMessages activeSessionInfo (inl (Some 404%N)) st) = []
     ∧ (∀ status, status ≠ Some 404%N →
          messages (fetchMessages activeSessionInfo (inl status) st)
          = messages st)
     ∧ (∀ data,
          messages (fetchMessages activeSessionInfo (inr data) st)
          = default [] data)
     ∧ (∀ status,
          messages (clearChatHistory activeSessionInfo (inl status) st)
          = messages st)
     ∧ messages (clearChatHistory activeSessionInfo (inr tt) st) = []
     ∧ (∀ reply,
          network (clearChatHistory activeSessionInfo reply st)
          = network st ++ [Delete "/api/v1/chatbot/messages"])).
Proof.
  split; intros Htok.
  - split; intros reply.
    + unfold fetchMessages. by rewrite Htok.
    + unfold clearChatHistory. by rewrite Htok.
  - unfold fetchMessages, clearChatHistory. rewrite Htok. simpl.
    split; [|split; [|split; [|split; [|split; [|split]]]]].
    + intros [status|data]; [|done]. by case_bool_decide.
    + done.
    + intros status Hs. by rewrite bool_decide_false.
    + done.
    + done.
    + done.
    + by intros [status|[]].
Qed.

End HistoryFacts.

(** ** More on the registry's operations *)

Section RegistryMore.

Import Session.

Variable JSON_stringify : SessionInfo → string.
Variable userToken : option string.

(** X23: a successful delete that leaves a session behind, or that
    deletes a session other than the active one, issues the delete request
    only: exactly the entries of the deleted id are removed, the others
    keep their order, and the active pointer moves to the last remaining
    session when the deleted one was active and stays put otherwise. *)
Theorem deleteSession_without_creation id createReply st :
  JS.truthy_opt (access_token_of (findSession id (sessions st))) = true →
  let remaining := filter (λ s, session_id s ≠ id) (sessions st) in
  let isActive := bool_decide (session_id <$> activeSessionInfo st = Some id) in
  remaining ≠ [] ∨ isActive = false →
  let st' := run (deleteSession JSON_stringify userToken id (Some tt)
                    createReply) st in
  sessions st' = remaining
  ∧ activeSessionInfo st'
    = (if isActive then last remaining else activeSessionInfo st)
  ∧ network st'
    = network st
      ++ [Delete ("/api/v1/auth/session/" +:+ id)
            ("Bearer " +:+ default ""
               (access_token_of (findSession id (sessions st))))].
Proof.
  intros Htok remaining isActive Hcase st'. subst st'.
  rewrite deleteSession_ok by done. fold remaining. fold isActive.
  destruct isActive; [|done].
  destruct Hcase as [Hne|]; [|done].
  destruct (snoc_last_removelast remaining Hne) as (r & -> & _). done.
Qed.

(** X24: [switchActiveSession] is a local change: it issues no request
    and leaves the list and every other persisted key alone; and it makes
    the pointer consistent from any state whenever its argument is null or
    a session of the list. *)
Theorem switchActiveSession_local a st :
  let st' := run (switchActiveSession JSON_stringify a) st in
  sessions st' = sessions st ∧ network st' = network st
  ∧ activeSessionInfo st' = a
  ∧ (∀ k, k ≠ "activeSessionId" → k ≠ "activeSessionInfo" →
          localStorage st' !! k = localStorage st !! k)
  ∧ ((∀ s, a = Some s → s ∈ sessions st) →
     Registry.consistent JSON_stringify st').
Proof.
  unfold run. rewrite switchActiveSession_run. simpl.
  split; [done|]. split; [done|]. split; [done|]. split.
  - intros k Hk1 Hk2. destruct a.
    + by rewrite !lookup_insert_ne.
    + by rewrite !lookup_delete_ne.
  - intros Hin. unfold Registry.consistent. simpl. destruct a as [s|].
    + split; [by apply Hin|].
      split; [by rewrite lookup_insert_ne, lookup_insert_eq|].
      by rewrite lookup_insert_eq.
    + split; [by rewrite lookup_delete_ne, lookup_delete_eq|].
      by rewrite lookup_delete_eq.
Qed.

End RegistryMore.

Section RequestFacts.

Import Chat.

Variable JSON_parse : string → option StreamChunk.t.
Variable baseURL : string.

(** X25: a submission sends at most one request. It sends none when the
    input is blank, a submission is in flight, no session is active or the
    active session has no token; otherwise it sends exactly one, whatever
    the outcome, to the stream URL, with the session's token and with the
    earlier messages followed by the user's message as its body: the empty
    assistant placeholder is not sent. *)
Theorem handleSubmit_request activeSessionInfo outcome st :
  let st' := (handleSubmit JSON_parse baseURL activeSessionInfo outcome st).1 in
  let t := default "" (Session.access_token_of activeSessionInfo) in
  fetched st'
  = if JS.truthy (JS.trim (input st)) && negb (isSending st) && JS.truthy t
    then fetched st
         ++ [{| fetch_url := baseURL +:+ "/api/v1/chatbot/chat/stream";
                fetch_authorization := "Bearer " +:+ t;
                fetch_messages :=
                  messages st ++ [{| role := user; content := input st |}] |}]
    else fetched st.
Proof.
  unfold handleSubmit.
  destruct (JS.truthy (JS.trim (input st))); simpl; [|done].
  destruct (isSending st); simpl; [done|].
  destruct activeSessionInfo as [a|]; simpl; [|done].
  unfold try_catch_finally, mbind, C_bind. simpl.
  destruct (Session.token a) as [tk|]; simpl; [|done].
  set (t := Session.access_token tk).
  destruct (JS.truthy t); simpl; [|done].
  destruct outcome as [e|[json status| |values fin]]; simpl; try done.
  by destruct (readLoop _ _ _ _) as [msgs [e|]].
Qed.

End RequestFacts.

(** ** Concrete runs of the further properties *)

Lemma mutations_keep_pointer_consistent_witness :
  Registry.consistent Sample.stringify
    (Session.run
       (Session.deleteSession Sample.stringify (Some "acct") "s2" (Some tt) None)
       Sample.two).
Proof.
  apply (mutations_keep_pointer_consistent Sample.stringify (Some "acct")
           Sample.two).
  split; [right; by left|]. split; reflexivity.
Defined.

Lemma registry_names_never_empty_witness :
  Registry.named
    (Session.run
       (Session.renameSession Sample.stringify "s1" "   "
          (Some (Session.with_name Sample.first "")))
       Sample.two).
Proof.
  apply (registry_names_never_empty Sample.stringify (Some "acct") Sample.two).
  repeat constructor.
Defined.

Lemma fetchSessions_restores_or_takes_last_witness :
  ∃ a,
    Session.activeSessionInfo
      (Session.run
         (Session.fetchSessions Sample.stringify (Some "acct")
            (Some [Sample.first; Sample.second]) None)
         Sample.remembering) = Some a
    ∧ Session.session_id a = "s1"
    ∧ a ∈ Session.sessions
            (Session.run
               (Session.fetchSessions Sample.stringify (Some "acct")
                  (Some [Sample.first; Sample.second]) None)
               Sample.remembering).
Proof.
  apply (fetchSessions_restores_or_takes_last Sample.stringify (Some "acct")
           Sample.first [Sample.second] None Sample.remembering).
  - reflexivity.
  - reflexivity.
  - reflexivity.
  - exists Sample.first. split; [by left|reflexivity].
Defined.

Lemma interceptor_unrouted_witness :
  Router.interceptor Sample.parseAccessToken Sample.store Sample.loginPost
  = Sample.loginPost
  ∧ Router.interceptor Sample.parseAccessToken
      (<["authToken" := "acct"]> ∅)
      (Router.mkConfig (Some "/api/v1/auth/session/s1/name") (Some "PATCH")
         ∅ None)
    = Router.mkConfig (Some "/api/v1/auth/session/s1/name") (Some "PATCH")
        ∅ None.
Proof.
  split.
  - apply (interceptor_unrouted Sample.parseAccessToken Sample.store
             Sample.loginPost); [reflexivity|].
    left. repeat split; reflexivity.
  - apply (interceptor_unrouted Sample.parseAccessToken); [reflexivity|].
    right. reflexivity.
Defined.

Lemma interceptor_account_routes_witness :
  Router.Authorization
    (Router.interceptor Sample.parseAccessToken Sample.store Sample.meGet)
  = Some "Bearer acct".
Proof.
  apply (interceptor_account_routes Sample.parseAccessToken Sample.store
           Sample.meGet "acct").
  - by left.
  - discriminate.
  - reflexivity.
  - reflexivity.
  - reflexivity.
Defined.

Lemma chatbot_call_carries_active_token_witness :
  Router.Authorization
    (Router.interceptor Sample.parseAccessToken
       (Session.localStorage Sample.one) Sample.chatbotGet)
  = Some "Bearer sess-1".
Proof.
  apply (chatbot_call_carries_active_token Sample.stringify
           Sample.parseAccessToken Sample.one Sample.chatbotGet)
    with (a := Sample.first).
  - split; [by left|]. split; reflexivity.
  - reflexivity.
  - reflexivity.
  - reflexivity.
  - reflexivity.
  - reflexivity.
  - reflexivity.
  - reflexivity.
Defined.

Lemma session_calls_keep_session_token_witness :
  ∃ c rest,
    Session.network
      (Session.run
         (Session.deleteSession Sample.stringify (Some "acct") "s1" (Some tt)
            None)
         Sample.one)
    = Session.network Sample.one ++ c :: rest
    ∧ Router.Authorization (Transport.toConfig c) = Some "Bearer sess-1"
    ∧ Router.interceptor Sample.parseAccessToken Sample.store
        (Transport.toConfig c)
      = Transport.toConfig c.
Proof.
  apply (session_calls_keep_session_token Sample.stringify
           Sample.parseAccessToken (Some "acct") "s1" Sample.one Sample.store).
  reflexivity.
Defined.

Lemma logout_clears_everything_witness :
  Auth.localStorage
    (Auth.logout
       (Auth.login "acct" "2030-01-01T00:00:00.000Z" (Some Sample.someone)
          Sample.loggedOut)) !! "authToken"
  = None.
Proof.
  apply (logout_clears_everything Sample.parseDate Sample.today).
  by left.
Defined.

Lemma login_then_checkAuth_witness :
  Auth.userToken
    (Auth.checkAuth Sample.parseDate Sample.today (Some Sample.someone)
       (Auth.login "acct" "2030-01-01T00:00:00.000Z" None Sample.loggedOut))
  = Some "acct".
Proof.
  apply (login_then_checkAuth Sample.parseDate Sample.today "acct"
           "2030-01-01T00:00:00.000Z" None (Some Sample.someone)
           Sample.loggedOut); reflexivity.
Defined.

Lemma checkAuth_authenticated_iff_witness :
  Auth.isAuthenticated
    (Auth.checkAuth Sample.parseDate Sample.today (Some Sample.someone)
       (Auth.login "acct" "2030-01-01T00:00:00.000Z" None Sample.loggedOut))
  = true.
Proof.
  apply (checkAuth_authenticated_iff Sample.parseDate Sample.today).
  exists "acct", "2030-01-01T00:00:00.000Z".
  repeat split; try reflexivity. by eexists.
Defined.

Lemma handleRenameSubmit_stores_trimmed_name_witness :
  Session.name <$>
    (Session.sessions
       (Sidebar.handleRenameSubmit Sample.stringify (Some Sample.first)
          (Sample.renaming, Sample.one)).2 !! 0%nat)
  = Some "Plans".
Proof.
  destruct (handleRenameSubmit_stores_trimmed_name Sample.stringify
              (Some Sample.first) Sample.renaming Sample.one) as [_ H].
  specialize (H Sample.first Sample.first eq_refl eq_refl eq_refl eq_refl).
  destruct (Sidebar.handleRenameSubmit _ _ _) as [ui' reg'].
  destruct H as (_ & _ & _ & Hs). simpl. rewrite Hs. reflexivity.
Defined.

Lemma history_failure_behaviour_witness :
  ChatContext.messages
    (ChatContext.fetchMessages (Some Sample.first) (inl (Some 500%N))
       Sample.history)
  = Sample.turn
  ∧ ChatContext.messages
      (ChatContext.fetchMessages (Some Sample.first) (inl (Some 404%N))
         Sample.history)
    = [].
Proof.
  destruct (history_failure_behaviour (Some Sample.first) Sample.history)
    as [_ H].
  destruct H as (_ & H404 & Hother & _); [reflexivity|].
  split; [by apply Hother|exact H404].
Defined.

Lemma deleteSession_without_creation_witness :
  Session.sessions
    (Session.run
       (Session.deleteSession Sample.stringify (Some "acct") "s1" (Some tt)
          None)
       Sample.two)
  = [Sample.second].
Proof.
  apply (deleteSession_without_creation Sample.stringify (Some "acct") "s1"
           None Sample.two).
  - reflexivity.
  - by left.
Defined.

Lemma switchActiveSession_local_witness :
  Registry.consistent Sample.stringify
    (Session.run (Session.switchActiveSession Sample.stringify
                    (Some Sample.first))
       Sample.single).
Proof.
  apply (switchActiveSession_local Sample.stringify (Some Sample.first)
           Sample.single).
  intros s [= <-]. by left.
Defined.
